(** * gsb: command dispatch and parser interception

    A shallow embedding of the dispatch core of the [gsb] package
    ([parser.py], [command.py], [caller.py], [protocol.py], [server.py] and
    [intercept.py]) together with the properties of its natural-language
    specification.

    Conventions.
    - Python [str] values are modelled by [string] (ASCII text).
    - Dispatcher objects ([Parser] and its subclasses) live in an object
      store and are referred to by identity ([ref]); [MenuItem] objects are
      carried by value with an identity tag.
    - User supplied callables (command handlers, permission predicates,
      menu callbacks, prompt hooks) are named by a [hook]; what they do is
      given by an environment, so every statement holds for all callables.
    - Code that may raise is written in a state-and-exception monad [M]. *)

From Stdlib Require Import ZArith Ascii String DecimalString Bool Lia.
From stdpp Require Import base option list strings gmap.
From Stdlib Require DecimalNat DecimalFacts.

Local Open Scope Z_scope.
Local Open Scope nat_scope.

(** ** Python string primitives *)

Module Py.

(** [str.lower] on ASCII text. *)
Definition lower_ascii (c : ascii) : ascii :=
  let n := nat_of_ascii c in
  if (65 <=? n) && (n <=? 90) then ascii_of_nat (n + 32) else c.

Fixpoint lower (s : string) : string :=
  match s with
  | EmptyString => EmptyString
  | String c t => String (lower_ascii c) (lower t)
  end.

(** [s.startswith(p)]. *)
Definition startswith (s p : string) : bool := String.prefix p s.

(** [s[n:]]. *)
Fixpoint drop (n : nat) (s : string) : string :=
  match n, s with
  | O, _ => s
  | S n', String _ t => drop n' t
  | S _, EmptyString => EmptyString
  end.

(** The text before and after the first occurrence of [sep] in [s]. *)
Fixpoint partition (sep s : string) : option (string * string) :=
  if String.prefix sep s then Some (EmptyString, drop (String.length sep) s)
  else match s with
       | EmptyString => None
       | String c t =>
           match partition sep t with
           | Some (a, b) => Some (String c a, b)
           | None => None
           end
       end.

(** [sep.join(l)]. *)
Definition join (sep : string) (l : list string) : string :=
  String.concat sep l.

(** [str(n)] for a non-negative [int]. *)
Definition str_of_nat (n : nat) : string :=
  NilEmpty.string_of_uint (Nat.to_uint n).

(** Truth value of a [str]. *)
Definition truthy (s : string) : bool :=
  match s with EmptyString => false | _ => true end.

(** *** [int(text)]

    Surrounding white space is ignored, a sign may precede the digits and
    single underscores may separate digits.  [None] stands for
    [ValueError].  The white space of [int] on ASCII text is the tab, the
    line feed, the vertical tab, the form feed, the carriage return and the
    blank; the separators 28 to 31, which [str.strip] removes, are no white
    space here.  The bound that recent interpreters put on the number of
    digits is not modelled: [Menu.match] treats [ValueError] as it treats an
    index that is out of range, and no list is that long. *)
Definition is_space (c : ascii) : bool :=
  let n := nat_of_ascii c in
  ((9 <=? n) && (n <=? 13)) || (n =? 32).

Definition digit_of (c : ascii) : option Z :=
  let n := nat_of_ascii c in
  if (48 <=? n) && (n <=? 57) then Some (Z.of_nat (n - 48)) else None.

Fixpoint lstrip (s : list ascii) : list ascii :=
  match s with
  | c :: t => if is_space c then lstrip t else s
  | [] => []
  end.

Definition strip (s : list ascii) : list ascii :=
  rev (lstrip (rev (lstrip s))).

Fixpoint digits (acc : Z) (after_digit : bool) (s : list ascii) : option Z :=
  match s with
  | [] => if after_digit then Some acc else None
  | c :: t =>
      match digit_of c with
      | Some d => digits (10 * acc + d)%Z true t
      | None =>
          if Ascii.eqb c "_" && after_digit
          then digits acc false t
          else None
      end
  end.

Definition int (text : string) : option Z :=
  match strip (list_ascii_of_string text) with
  | c :: t =>
      if Ascii.eqb c "-" then Z.opp <$> digits 0 false t
      else if Ascii.eqb c "+" then digits 0 false t
      else digits 0 false (c :: t)
  | [] => None
  end.

(** [l[i]] for a possibly negative index; [None] stands for
    [IndexError]. *)
Definition getitem {A} (l : list A) (i : Z) : option A :=
  if (0 <=? i)%Z then l !! Z.to_nat i
  else if (- Z.of_nat (length l) <=? i)%Z
       then l !! Z.to_nat (Z.of_nat (length l) + i)
       else None.

End Py.

(** ** Data model *)

(** Identity of a dispatcher object ([Parser] or one of its subclasses). *)
Definition ref := nat.

(** Name of a user supplied callable. *)
Definition hook := nat.

(** Exceptions (instances of [Exception]).  [ReferenceError] is raised by
    the model when a [ref] names no object of the store. *)
Inductive exn :=
| ValueError
| IndexError
| AttributeError
| TypeError
| ReferenceError
| DontStopException
| UserException (tag : nat).

(** The connection ([Protocol] instance) of the modelled session. *)
Inductive Protocol := this_connection.

(** [caller.py]: class [Caller]. *)
Record Caller := mkCaller {
  connection : option Protocol;
  text : option string;
  command : string;
  args_str : string;
  args : list (option string);
  kwargs : list (string * option string);
  exception : option exn
}.

(** [Caller(connection, text=text)]. *)
Definition Caller_init (connection : option Protocol) (text : option string) : Caller :=
  mkCaller connection text "" "" [] [] None.

Definition set_text (c : Caller) (t : option string) : Caller :=
  mkCaller (connection c) t (command c) (args_str c) (args c) (kwargs c) (exception c).

Definition set_command (c : Caller) (name a : string) : Caller :=
  mkCaller (connection c) (text c) name a (args c) (kwargs c) (exception c).

Definition set_args (c : Caller) (a : list (option string))
    (k : list (string * option string)) : Caller :=
  mkCaller (connection c) (text c) (command c) (args_str c) a k (exception c).

Definition set_exception (c : Caller) (e : exn) : Caller :=
  mkCaller (connection c) (text c) (command c) (args_str c) (args c) (kwargs c) (Some e).

(** A compiled pattern: [pattern.match(s)] gives [m.groups()] and
    [m.groupdict()], or [None]. *)
Definition Pattern : Type :=
  string -> option (list (option string) * list (string * option string)).

(** [command.py]: class [Command]. *)
Record Command := mkCommand {
  func : hook;
  names : list string;
  description : string;
  help : string;
  args_regexp : option Pattern;
  allowed : option hook
}.

(** A value that is either a line of text or a callable taking the caller. *)
Inductive text_or_callable :=
| Text (s : string)
| Callable (h : hook).

(** Truth value of an optional [str] ([None] is false). *)
Definition truthy_text (t : option string) : bool :=
  match t with
  | Some s => Py.truthy s
  | None => false
  end.

Definition truthy_value (v : option text_or_callable) : bool :=
  match v with
  | None => false
  | Some (Text s) => Py.truthy s
  | Some (Callable _) => true
  end.

(** [parser.py]: the attributes of class [Parser].  [commands] is the dict
    from a name to the commands registered under it, in registration order;
    [command_substitutions] is a dict kept in insertion order. *)
Record Parser := mkParser {
  command_separator : string;
  commands : gmap string (list Command);
  command_substitutions : list (string * string)
}.

(** [Parser()], while the two dictionaries it shares are empty. *)
Definition Parser_init : Parser := mkParser " " ∅ [].

(** What [Parser.__init__] stores when it is called without arguments, as
    [Intercept.__init__] calls it.  The defaults of [commands] and of
    [command_substitutions] are one dictionary each, made when the [def]
    statement runs and held by every parser that was made without that
    argument; [shared_commands] and [shared_substitutions] are what the two
    dictionaries hold. *)
Definition Parser_default (shared_commands : gmap string (list Command))
    (shared_substitutions : list (string * string)) : Parser :=
  mkParser " " shared_commands shared_substitutions.

(** [intercept.py]: the attributes added by class [Intercept]. *)
Record Intercept := mkIntercept {
  abort_command : string;
  aborted : text_or_callable;
  no_abort : option text_or_callable;
  restore_parser : option ref
}.

(** [Intercept.__init__]: the arguments [no_abort] and [restore_parser] are
    accepted and both attributes are set to [None]. *)
Definition Intercept_init (abort_command : string) (aborted : text_or_callable)
    (no_abort : option text_or_callable) (restore_parser : option ref) : Intercept :=
  mkIntercept abort_command aborted None None.

(** [Intercept.__init__(self)] as the subclasses call it. *)
Definition Intercept_default : Intercept :=
  Intercept_init "@abort" (Text "Aborted") None None.

(** [intercept.py]: class [MenuItem]; [item_id] is the identity of the
    object. *)
Record MenuItem := mkMenuItem {
  item_id : nat;
  item_text : string;
  item_func : hook;
  index : nat
}.

(** [MenuItem(text, func)]. *)
Definition MenuItem_init (id : nat) (text : string) (func : hook) : MenuItem :=
  mkMenuItem id text func 0.

Definition set_index (i : MenuItem) (n : nat) : MenuItem :=
  mkMenuItem (item_id i) (item_text i) (item_func i) n.

(** [intercept.py]: class [MenuLabel]; [after] holds the identity of an item. *)
Record MenuLabel := mkMenuLabel {
  label_text : string;
  after : option nat
}.

(** The attributes added by class [Menu]. *)
Record Menu := mkMenu {
  title : string;
  items : list MenuItem;
  labels : list MenuLabel;
  menu_prompt : text_or_callable;
  no_matches : option hook;
  multiple_matches : option hook;
  persistent : bool
}.

(** The attributes added by class [Reader]. *)
Record Reader := mkReader {
  reader_prompt : option text_or_callable;
  line_separator : string;
  done_command : string;
  spell_check_command : string;
  multiline : bool;
  before_line : option text_or_callable;
  after_line : option text_or_callable;
  buffer : string;
  done : option hook
}.

(** The attributes added by class [YesOrNo]. *)
Record YesOrNo := mkYesOrNo {
  question : string;
  yes : hook;
  no : option hook;
  yn_prompt : string
}.

(** The class of a dispatcher object with the attributes the class adds. *)
Inductive Sub :=
| SIntercept
| SMenu (m : Menu)
| SReader (r : Reader)
| SYesOrNo (y : YesOrNo).

Inductive Kind :=
| KParser
| KIntercept (i : Intercept) (s : Sub).

Record Obj := mkObj {
  parser_of : Parser;
  kind : Kind
}.

(** What the session does, in order. *)
Inductive Event :=
| sendLine (line : string)                 (* connection.sendLine *)
| warn_fallback (default : ref)            (* logger.warning in Protocol.parser *)
| warn_error (self : ref) (cmd : list string) (* logger.warning in handle_line *)
| log_exception (e : exn)                  (* logger.exception *)
| print (value : ref)                      (* print(value) *)
| on_detach_call (p : ref) (new_parser : option ref)
| on_attach_call (p : ref) (old_parser : option ref)
| called (h : hook) (c : Caller).          (* recorded by tracing callables *)

(** The state: the object store, the connection ([_parser]), its server
    ([default_parser], and whether a spell checker class is available) and
    the events so far. *)
Record World := mkWorld {
  objects : gmap ref Obj;
  _parser : option ref;
  default_parser : ref;
  spell_checker : bool;
  trace : list Event
}.

(** ** Computations that may raise *)

Inductive Res (A : Type) :=
| Ok (a : A)
| Raise (e : exn).
Arguments Ok {A} a.
Arguments Raise {A} e.

Definition M (A : Type) : Type := World -> Res A * World.

Definition ret {A} (a : A) : M A := fun w => (Ok a, w).

Definition bind {A B} (m : M A) (k : A -> M B) : M B :=
  fun w => match m w with
           | (Ok a, w') => k a w'
           | (Raise e, w') => (Raise e, w')
           end.

Definition raise {A} (e : exn) : M A := fun w => (Raise e, w).

Declare Scope gsb_scope.
Delimit Scope gsb_scope with gsb.
Notation "x <- m ;; k" := (bind m (fun x => k))
  (at level 100, m at next level, right associativity) : gsb_scope.
Notation "m ;; k" := (bind m (fun _ => k))
  (at level 100, right associativity) : gsb_scope.
Local Open Scope gsb_scope.

Definition get : M World := fun w => (Ok w, w).

Definition emit (e : Event) : M unit :=
  fun w => (Ok tt, mkWorld (objects w) (_parser w) (default_parser w)
                           (spell_checker w) (trace w ++ [e])).

Definition store_parser (v : option ref) : M unit :=
  fun w => (Ok tt, mkWorld (objects w) v (default_parser w)
                           (spell_checker w) (trace w)).

Definition store_obj (r : ref) (o : Obj) : M unit :=
  fun w => (Ok tt, mkWorld (<[r := o]> (objects w)) (_parser w) (default_parser w)
                           (spell_checker w) (trace w)).

Definition get_obj (r : ref) : M Obj :=
  fun w => match objects w !! r with
           | Some o => (Ok o, w)
           | None => (Raise ReferenceError, w)
           end.

(** Attribute access: an attribute of [Intercept] (of [Menu], ...) on an
    object of another class raises [AttributeError]. *)
Definition get_intercept (self : ref) : M Intercept :=
  o <- get_obj self ;;
  match kind o with
  | KIntercept i _ => ret i
  | KParser => raise AttributeError
  end.

Definition get_menu (self : ref) : M Menu :=
  o <- get_obj self ;;
  match kind o with
  | KIntercept _ (SMenu m) => ret m
  | _ => raise AttributeError
  end.

Definition get_reader (self : ref) : M Reader :=
  o <- get_obj self ;;
  match kind o with
  | KIntercept _ (SReader r) => ret r
  | _ => raise AttributeError
  end.

Definition get_yesorno (self : ref) : M YesOrNo :=
  o <- get_obj self ;;
  match kind o with
  | KIntercept _ (SYesOrNo y) => ret y
  | _ => raise AttributeError
  end.

Definition set_buffer (r : Reader) (b : string) : Reader :=
  mkReader (reader_prompt r) (line_separator r) (done_command r)
           (spell_check_command r) (multiline r) (before_line r)
           (after_line r) b (done r).

(** [self.buffer = b]. *)
Definition assign_buffer (self : ref) (b : string) : M unit :=
  o <- get_obj self ;;
  match kind o with
  | KIntercept i (SReader r) =>
      store_obj self (mkObj (parser_of o) (KIntercept i (SReader (set_buffer r b))))
  | _ => raise AttributeError
  end.

(** ** User callables *)

Record Callables := mkCallables {
  (** [f(caller)]: the exception raised if any, the caller as the callable
      leaves it, and the state afterwards. *)
  call_hook : hook -> Caller -> World -> option exn * Caller * World;
  (** [f(caller, items)], the signature of [Menu.multiple_matches]. *)
  call_hook2 : hook -> Caller -> list MenuItem -> World -> option exn * Caller * World;
  (** [allowed(caller)]: a predicate, which reads the state. *)
  test_hook : hook -> Caller -> World -> bool
}.

(** The double quote character. *)
Definition quote : string := String (ascii_of_nat 34) EmptyString.

(** ** The dispatchers *)

Section Dispatch.

Variable E : Callables.

(** [f(caller)] where an exception propagates. *)
Definition call (h : hook) (c : Caller) : M Caller :=
  fun w => match call_hook E h c w with
           | (None, c', w') => (Ok c', w')
           | (Some e, _, w') => (Raise e, w')
           end.

(** [f(caller)] inside [try]: the exception is handed to the caller. *)
Definition try_call (h : hook) (c : Caller) : M (option exn * Caller) :=
  fun w => match call_hook E h c w with
           | (e, c', w') => (Ok (e, c'), w')
           end.

Definition call2 (h : hook) (c : Caller) (l : list MenuItem) : M Caller :=
  fun w => match call_hook2 E h c l w with
           | (None, c', w') => (Ok c', w')
           | (Some e, _, w') => (Raise e, w')
           end.

(** [connection.notify(text)] for a [str]: [Server.notify] formats the
    text and hands it to [sendLine]. *)
Definition notify (line : string) : M unit := emit (sendLine line).

(** [connection.notify(value)] where [value] may be a callable: a function
    is not a [Parser], and has no [encode]. *)
Definition notify_value (v : text_or_callable) : M unit :=
  match v with
  | Text s => notify s
  | Callable _ => raise AttributeError
  end.

(** [Intercept.send]. *)
Definition send (value : text_or_callable) (caller : Caller) : M Caller :=
  match value with
  | Callable h => call h caller
  | Text s =>
      match connection caller with
      | Some _ => notify s ;; ret caller
      | None => ret caller
      end
  end.

(** *** Explaining an intercept to a connection *)

(** [MenuItem.as_string]. *)
Definition as_string (i : MenuItem) : string :=
  "[" +:+ Py.str_of_nat (index i) +:+ "] " +:+ item_text i.

Fixpoint notify_all (l : list string) : M unit :=
  match l with
  | [] => ret tt
  | s :: t => notify s ;; notify_all t
  end.

Definition labels_after (lbls : list MenuLabel) (a : option nat) : list string :=
  label_text <$> filter (fun l => after l = a) lbls.

(** [Menu.send_items]: [its] is the list to show ([self.items] when the
    argument is [None]). *)
Definition Menu_send_items (self : ref) (its : option (list MenuItem)) : M unit :=
  m <- get_menu self ;;
  let its := default (items m) its in
  notify_all (labels_after (labels m) None) ;;
  notify_all (concat ((fun i => as_string i :: labels_after (labels m) (Some (item_id i))) <$> its)).

(** [Menu.explain]. *)
Definition Menu_explain (self : ref) : M unit :=
  m <- get_menu self ;;
  notify (title m) ;;
  Menu_send_items self None ;;
  m <- get_menu self ;;
  send (menu_prompt m) (Caller_init (Some this_connection) None) ;;
  ret tt.

Definition exit_hint (i : Intercept) : string :=
  match no_abort i with
  | None => " or " +:+ abort_command i +:+ " to exit"
  | Some _ => ""
  end.

(** [Reader.explain]. *)
Definition Reader_explain (self : ref) : M unit :=
  r <- get_reader self ;;
  i <- get_intercept self ;;
  let caller := Caller_init (Some this_connection) (Some (buffer r)) in
  caller <- match reader_prompt r with
            | None =>
                (if multiline r
                 then notify ("Enter lines of text. Type " +:+ done_command r
                              +:+ " on a blank line to finish" +:+ exit_hint i +:+ ".")
                 else notify ("Enter a line of text" +:+ exit_hint i +:+ ".")) ;;
                ret caller
            | Some p => send p caller
            end ;;
  r <- get_reader self ;;
  match before_line r with
  | Some b => send b caller ;; ret tt
  | None => ret tt
  end.

(** [YesOrNo.explain]. *)
Definition YesOrNo_explain (self : ref) : M unit :=
  y <- get_yesorno self ;;
  notify (question y) ;;
  notify (yn_prompt y).

(** [self.explain(connection)], by the class of [self]. *)
Definition explain (self : ref) : M unit :=
  o <- get_obj self ;;
  match kind o with
  | KParser => raise TypeError
  | KIntercept _ SIntercept => ret tt
  | KIntercept _ (SMenu _) => Menu_explain self
  | KIntercept _ (SReader _) => Reader_explain self
  | KIntercept _ (SYesOrNo _) => YesOrNo_explain self
  end.

(** *** Swapping the dispatcher of the connection *)

(** [p.on_detach(connection, new_parser)]: no class overrides
    [Parser.on_detach], which does nothing. *)
Definition on_detach (p : ref) (new_parser : option ref) : M unit :=
  emit (on_detach_call p new_parser).

(** [p.on_attach(connection, old_parser)]: [Parser.on_attach] does
    nothing, [Intercept.on_attach] explains the instance. *)
Definition on_attach (p : ref) (old_parser : option ref) : M unit :=
  emit (on_attach_call p old_parser) ;;
  o <- get_obj p ;;
  match kind o with
  | KParser => ret tt
  | KIntercept _ _ => explain p
  end.

(** [Protocol.parser], the setter: [connection.parser = value]. *)
Definition Protocol_set_parser (value : option ref) : M unit :=
  w <- get ;;
  let old_parser := _parser w in
  match old_parser with
  | Some p => on_detach p value
  | None => ret tt
  end ;;
  value <- match value with
           | Some v => ret v
           | None =>
               w <- get ;;
               emit (warn_fallback (default_parser w)) ;;
               ret (default_parser w)
           end ;;
  store_parser (Some value) ;;
  emit (print value) ;;
  on_attach value old_parser.

(** *** Intercept *)

(** [Intercept.do_abort]. *)
Definition Intercept_do_abort (self : ref) (caller : Caller) : M (bool * Caller) :=
  i <- get_intercept self ;;
  if truthy_value (no_abort i)
  then
    caller <- match no_abort i with
              | Some v => send v caller
              | None => ret caller
              end ;;
    ret (true, caller)
  else
    caller <- send (aborted i) caller ;;
    match connection caller with
    | Some _ => i <- get_intercept self ;; Protocol_set_parser (restore_parser i)
    | None => ret tt
    end ;;
    ret (true, caller).

(** [Intercept.huh]. *)
Definition Intercept_huh (self : ref) (caller : Caller) : M (bool * Caller) :=
  let line := text caller in
  i <- get_intercept self ;;
  if decide (line = Some (abort_command i))
  then Intercept_do_abort self caller
  else ret (false, caller).

(** *** Menu *)

(** [Menu._no_matches]. *)
Definition Menu__no_matches (self : ref) (caller : Caller) : M Caller :=
  match connection caller with
  | Some _ =>
      notify "Invalid selection." ;;
      m <- get_menu self ;;
      (if negb (persistent m)
       then i <- get_intercept self ;; Protocol_set_parser (restore_parser i)
       else ret tt) ;;
      ret caller
  | None => ret caller
  end.

(** [Menu._multiple_matches]. *)
Definition Menu__multiple_matches (self : ref) (caller : Caller)
    (matches : list MenuItem) : M Caller :=
  match connection caller with
  | Some _ =>
      notify "That matched multiple items:" ;;
      Menu_send_items self (Some matches) ;;
      m <- get_menu self ;;
      notify_value (menu_prompt m) ;;
      ret caller
  | None => ret caller
  end.

(** The items whose label starts with [text], ignoring case. *)
Definition prefix_matches (text : string) (its : list MenuItem) : list MenuItem :=
  filter (fun item => Is_true (Py.startswith (Py.lower (item_text item)) text)) its.

(** [Menu.match]: the selected item or [None], and the caller as the hooks
    leave it. *)
Definition Menu_match (self : ref) (caller : Caller) : M (option MenuItem * Caller) :=
  m <- get_menu self ;;
  match text caller with
  | None => ret (None, caller)
  | Some EmptyString => ret (None, caller)
  | Some t =>
      let text := Py.lower t in
      if decide (text = "$")
      then match Py.getitem (items m) (-1) with
           | Some i => ret (Some i, caller)
           | None => raise IndexError
           end
      else
        match num ← Py.int text;
              Py.getitem (items m) (if (0 <? num)%Z then (num - 1)%Z else num) with
        | Some i => ret (Some i, caller)
        | None =>
            let found := if Py.truthy text then prefix_matches text (items m) else [] in
            match found with
            | [] =>
                caller <- match no_matches m with
                          | None => Menu__no_matches self caller
                          | Some h => call h caller
                          end ;;
                ret (None, caller)
            | [i] => ret (Some i, caller)
            | _ =>
                caller <- match multiple_matches m with
                          | None => Menu__multiple_matches self caller found
                          | Some h => call2 h caller found
                          end ;;
                ret (None, caller)
            end
        end
  end.

(** [Menu.huh]. *)
Definition Menu_huh (self : ref) (caller : Caller) : M bool :=
  r <- Intercept_huh self caller ;;
  let caller := r.2 in
  if r.1 then ret true
  else
    r <- Menu_match self caller ;;
    let caller := r.2 in
    match r.1 with
    | Some m =>
        match connection caller with
        | Some _ => i <- get_intercept self ;; Protocol_set_parser (restore_parser i)
        | None => ret tt
        end ;;
        call (item_func m) caller ;;
        ret true
    | None =>
        m <- get_menu self ;;
        (if persistent m && bool_decide (is_Some (connection caller))
         then explain self
         else ret tt) ;;
        ret true
    end.

(** [Menu.__init__]: every item gets the position of its first occurrence
    in the list, counted from one.  The parser part is the one of
    [Parser_default]: a menu has the commands of the shared dictionary. *)
Definition first_position (id : nat) (its : list MenuItem) : nat :=
  default 0 (fst <$> list_find (fun i => item_id i = id) its).

Definition Menu_init (shared_commands : gmap string (list Command))
    (shared_substitutions : list (string * string))
    (title : string) (items : list MenuItem)
    (labels : list MenuLabel) (prompt : text_or_callable)
    (no_matches multiple_matches : option hook) (persistent : bool) : Obj :=
  mkObj (Parser_default shared_commands shared_substitutions)
    (KIntercept Intercept_default
       (SMenu (mkMenu title
                 ((fun i => set_index i (first_position (item_id i) items + 1)) <$> items)
                 labels prompt no_matches multiple_matches persistent))).

Definition set_items (m : Menu) (its : list MenuItem) : Menu :=
  mkMenu (title m) its (labels m) (menu_prompt m) (no_matches m)
         (multiple_matches m) (persistent m).

(** The classes that [Menu] inherits from, in method resolution order, and
    the attributes defined by each class body. *)
Definition Menu_mro : list (string * list string) :=
  [ ("Menu", ["__init__"; "add_label"; "item"; "explain"; "send_items";
              "_no_matches"; "_multiple_matches"; "huh"; "match"]);
    ("Intercept", ["__init__"; "send"; "do_abort"; "on_attach"; "huh"; "explain"]);
    ("Parser", ["__init__"; "all_commands"; "huh"; "on_attach"; "on_detach";
                "on_error"; "make_command_names"; "make_command_description";
                "make_command_help"; "default_kwargs"; "command"; "pre_command";
                "split"; "post_command"; "get_commands"; "explain_substitution";
                "explain"; "handle_line"]);
    ("_MenuBase", ["__init__"]) ].

Definition defined_in_mro (name : string) : bool :=
  bool_decide (Exists (fun c => name ∈ c.2) Menu_mro).

(** [Menu.item(name)(func)]: the item is appended, then
    [self.__attrs_post_init__()] is evaluated; no class of [Menu_mro] (nor
    [object]) defines that attribute, so the lookup raises and [return i]
    is not reached. *)
Definition Menu_item (self : ref) (id : nat) (name : string) (func : hook) : M MenuItem :=
  let i := MenuItem_init id name func in
  o <- get_obj self ;;
  match kind o with
  | KIntercept ic (SMenu m) =>
      store_obj self (mkObj (parser_of o) (KIntercept ic (SMenu (set_items m (items m ++ [i]))))) ;;
      raise AttributeError
  | _ => raise AttributeError
  end.

(** *** Reader *)

(** [Reader.__init__], with the parser part of [Parser_default]. *)
Definition Reader_init (shared_commands : gmap string (list Command))
    (shared_substitutions : list (string * string))
    (prompt : option text_or_callable)
    (line_separator done_command spell_check_command : string) (multiline : bool)
    (before_line after_line : option text_or_callable) (buffer : string)
    (done : option hook) : Obj :=
  mkObj (Parser_default shared_commands shared_substitutions)
    (KIntercept Intercept_default
       (SReader (mkReader prompt line_separator done_command spell_check_command
                   multiline before_line after_line buffer done))).

Definition send_opt (v : option text_or_callable) (caller : Caller) : M Caller :=
  match v with
  | Some v => send v caller
  | None => ret caller
  end.

(** [Reader.huh]. *)
Definition Reader_huh (self : ref) (caller : Caller) : M bool :=
  let line := text caller in
  r <- get_reader self ;;
  caller <- send_opt (after_line r) caller ;;
  a <- Intercept_huh self caller ;;
  let caller := a.2 in
  if a.1 then ret true
  else
    match connection caller with
    | None => ret false
    | Some _ =>
        r <- get_reader self ;;
        if decide (line = Some (spell_check_command r))
        then
          w <- get ;;
          (if spell_checker w
           then raise TypeError
           else notify "Spell checking is not available on this system.") ;;
          ret true
        else
          (if negb (multiline r) || negb (bool_decide (line = Some (done_command r)))
           then
             if Py.truthy (buffer r) && truthy_text line
             then assign_buffer self
                    (Py.join (line_separator r) [buffer r; default EmptyString line])
             else if truthy_text (text caller)
                  then assign_buffer self (default EmptyString (text caller))
                  else ret tt
           else ret tt) ;;
          r <- get_reader self ;;
          let caller := set_text caller (Some (buffer r)) in
          if negb (multiline r) || bool_decide (line = Some (done_command r))
          then
            i <- get_intercept self ;;
            Protocol_set_parser (restore_parser i) ;;
            r <- get_reader self ;;
            match done r with
            | Some h => call h caller ;; ret true
            | None => ret true
            end
          else
            send_opt (before_line r) caller ;;
            ret false
    end.

(** [Reader.restore]. *)
Definition Reader_restore (self : ref) (caller : Caller) : M unit :=
  match connection caller with
  | Some _ => notify "Spell checking complete." ;; Protocol_set_parser (Some self)
  | None => ret tt
  end ;;
  if truthy_text (text caller)
  then assign_buffer self (default EmptyString (text caller))
  else ret tt.

(** *** YesOrNo *)

(** [YesOrNo.__init__], with the parser part of [Parser_default]. *)
Definition YesOrNo_init (shared_commands : gmap string (list Command))
    (shared_substitutions : list (string * string))
    (question : string) (yes : hook) (no : option hook)
    (prompt : option string) : Obj :=
  mkObj (Parser_default shared_commands shared_substitutions)
    (KIntercept Intercept_default
       (SYesOrNo (mkYesOrNo question yes no
          (default ("Enter " +:+ quote +:+ "yes" +:+ quote +:+ " or " +:+ quote +:+ "no"
                    +:+ quote +:+ " or " +:+ abort_command Intercept_default
                    +:+ " to abort the command.") prompt)))).

(** [YesOrNo.huh]. *)
Definition YesOrNo_huh (self : ref) (caller : Caller) : M bool :=
  a <- Intercept_huh self caller ;;
  let caller := a.2 in
  if negb a.1
  then
    match text caller with
    | Some (String c t) =>
        match connection caller with
        | Some _ => i <- get_intercept self ;; Protocol_set_parser (restore_parser i)
        | None => ret tt
        end ;;
        y <- get_yesorno self ;;
        (if Py.startswith (Py.lower (String c t)) "y"
         then call (yes y) caller ;; ret tt
         else match no y with
              | Some n => call n caller ;; ret tt
              | None => Intercept_do_abort self caller ;; ret tt
              end) ;;
        ret true
    | _ => ret false
    end
  else ret false.

(** *** Parser *)

(** [Parser.huh]. *)
Definition Parser_huh (caller : Caller) : M bool :=
  match connection caller with
  | Some _ => notify "I don't understand that."
  | None => ret tt
  end ;;
  ret true.

(** [self.huh(caller)], by the class of [self]. *)
Definition huh (self : ref) (caller : Caller) : M bool :=
  o <- get_obj self ;;
  match kind o with
  | KParser => Parser_huh caller
  | KIntercept _ SIntercept => a <- Intercept_huh self caller ;; ret a.1
  | KIntercept _ (SMenu _) => Menu_huh self caller
  | KIntercept _ (SReader _) => Reader_huh self caller
  | KIntercept _ (SYesOrNo _) => YesOrNo_huh self caller
  end.

(** [Parser.on_error]; no class overrides it. *)
Definition on_error (self : ref) (caller : Caller) : M unit :=
  match connection caller with
  | Some _ => notify "There was an error with your command."
  | None => ret tt
  end.

(** [Parser.explain_substitution]. *)
Definition Parser_explain_substitution (p : Parser) (short long : string) : M unit :=
  notify ("Instead of typing " +:+ quote +:+ long +:+ command_separator p +:+ quote
          +:+ ", you can type " +:+ short +:+ ".").

Fixpoint explain_substitutions (p : Parser) (cmd : Command)
    (subs : list (string * string)) : M unit :=
  match subs with
  | [] => ret tt
  | (key, value) :: rest =>
      (if bool_decide (value ∈ names cmd)
       then Parser_explain_substitution p key value
       else ret tt) ;;
      explain_substitutions p cmd rest
  end.

(** [Parser.explain]. *)
Definition Parser_explain (p : Parser) (cmd : Command) : M unit :=
  notify (Py.join " or " (names cmd) +:+ ":") ;;
  explain_substitutions p cmd (command_substitutions p) ;;
  notify (description cmd) ;;
  notify (help cmd).

(** [self.explain(cmd, connection)], by the class of [self]: the
    subclasses of [Intercept] redefine [explain] with one argument. *)
Definition explain_command (self : ref) (cmd : Command) : M unit :=
  o <- get_obj self ;;
  match kind o with
  | KParser => Parser_explain (parser_of o) cmd
  | KIntercept _ _ => raise TypeError
  end.

(** [Command.ok_for]. *)
Definition ok_for (cmd : Command) (caller : Caller) : M bool :=
  match allowed cmd with
  | None => ret true
  | Some h => w <- get ;; ret (test_hook E h caller w)
  end.

(** [Parser.pre_command]; no class overrides it. *)
Definition pre_command (caller : Caller) : bool := true.

(** [Parser.split]: [str.split] refuses an empty separator. *)
Definition Parser_split (p : Parser) (line : string) : M (string * string) :=
  match command_separator p with
  | EmptyString => raise ValueError
  | sep =>
      match Py.partition sep line with
      | Some r => ret r
      | None => ret (line, EmptyString)
      end
  end.

(** [Parser.get_commands]. *)
Definition get_commands (p : Parser) (name : string) : list Command :=
  default [] (commands p !! name).

Definition dict_get (k : string) (d : list (string * string)) : option string :=
  snd <$> find (fun kv => bool_decide (kv.1 = k)) d.

(** The rewriting of the first character at the head of
    [Parser.handle_line]. *)
Definition substitute (p : Parser) (line : string) : string :=
  match line with
  | String c rest =>
      match dict_get (String c EmptyString) (command_substitutions p) with
      | Some long => long +:+ command_separator p +:+ rest
      | None => line
      end
  | EmptyString => line
  end.

(** How the [for] loop of [Parser.handle_line] was left. *)
Inductive loop_exit := Break | Exhausted.

(** The [for cmd in self.get_commands(command)] loop of
    [Parser.handle_line]: how the loop ends, the caller and the number of
    matched commands. *)
Fixpoint for_commands (self : ref) (cmds : list Command) (a : string)
    (caller : Caller) (matched : nat) : M (loop_exit * Caller * nat) :=
  match cmds with
  | [] => ret (Exhausted, caller, matched)
  | cmd :: rest =>
      ok <- ok_for cmd caller ;;
      if ok then
        match match args_regexp cmd with
              | None => Some ([], [])
              | Some re => re a
              end with
        | None =>
            match connection caller with
            | Some _ => explain_command self cmd
            | None => ret tt
            end ;;
            ret (Break, caller, matched)
        | Some m =>
            let caller := set_args caller m.1 m.2 in
            let matched := matched + 1 in
            r <- try_call (func cmd) caller ;;
            let caller := r.2 in
            match r.1 with
            | None => ret (Break, caller, matched)
            | Some DontStopException => for_commands self rest a caller matched
            | Some e =>
                emit (warn_error self (names cmd)) ;;
                emit (log_exception e) ;;
                let caller := set_exception caller e in
                on_error self caller ;;
                for_commands self rest a caller matched
            end
        end
      else for_commands self rest a caller matched
  end.

(** [Caller(connection, text=line)], the caller of a received line. *)
Definition line_caller (line : string) : Caller :=
  Caller_init (Some this_connection) (Some line).

(** [Parser.handle_line]. *)
Definition handle_line (self : ref) (line : string) : M (option nat) :=
  o <- get_obj self ;;
  let p := parser_of o in
  let line := substitute p line in
  let caller := line_caller line in
  if negb (pre_command caller) then ret None
  else
    s <- Parser_split p line ;;
    let caller := set_command caller s.1 s.2 in
    r <- for_commands self (get_commands p s.1) s.2 caller 0 ;;
    let matched := r.2 in
    let caller := r.1.2 in
    match r.1.1 with
    | Exhausted => if matched =? 0 then huh self caller ;; ret tt else ret tt
    | Break => ret tt
    end ;;
    ret (if matched =? 0 then None else Some matched).

(** [Protocol.lineReceived], after decoding. *)
Definition lineReceived (line : string) : M unit :=
  w <- get ;;
  match _parser w with
  | Some p => handle_line p line ;; ret tt
  | None => ret tt
  end.

End Dispatch.

(** ** Vocabulary of the statements *)

(** The state after [lines] were sent to the connection. *)
Definition sends (lines : list string) (w : World) : World :=
  mkWorld (objects w) (_parser w) (default_parser w) (spell_checker w)
          (trace w ++ (sendLine <$> lines)).

(** The state after object [r] was replaced by [o]. *)
Definition with_obj (r : ref) (o : Obj) (w : World) : World :=
  mkWorld (<[r := o]> (objects w)) (_parser w) (default_parser w) (spell_checker w)
          (trace w).

(** A [Reader] object with its buffer replaced. *)
Definition with_buffer (o : Obj) (b : string) : Obj :=
  match kind o with
  | KIntercept i (SReader r) => mkObj (parser_of o) (KIntercept i (SReader (set_buffer r b)))
  | _ => o
  end.

(** A computation that leaves the object store as it is. *)
Definition keeps_objects {A} (m : M A) : Prop :=
  forall w, objects (m w).2 = objects w.

(** Callables that leave the object store as it is. *)
Definition callables_keep_objects (E : Callables) : Prop :=
  forall h c w,
    objects (call_hook E h c w).2 = objects w /\
    forall l, objects (call_hook2 E h c l w).2 = objects w.

(** The line that a literal prompt sends; a callable or absent prompt sends
    none by itself. *)
Definition literal (v : option text_or_callable) : list string :=
  match v with Some (Text s) => [s] | _ => [] end.

Definition is_callable (v : option text_or_callable) : bool :=
  match v with Some (Callable _) => true | _ => false end.

(** The non-empty texts joined by the separator. *)
Definition joined (sep : string) (texts : list string) : string :=
  Py.join sep (filter (fun s => s <> EmptyString) texts).

(** A line that is neither the abort token nor the spell-check token. *)
Definition ordinary (i : Intercept) (r : Reader) (line : string) : Prop :=
  line <> abort_command i /\ line <> spell_check_command r.

(** Lines handed to a reader one after the other. *)
Fixpoint read_lines (E : Callables) (self : ref) (lines : list string) : M unit :=
  match lines with
  | [] => ret tt
  | l :: rest => Reader_huh E self (line_caller l) ;; read_lines E self rest
  end.

(** The end of a reader: the connection gets the reader's [restore_parser]
    and then the completion hook runs with the text [b]. *)
Definition restore_and_complete (E : Callables) (self : ref) (i : Intercept)
    (c : Caller) (b : string) : M bool :=
  Protocol_set_parser E (restore_parser i) ;;
  r <- get_reader self ;;
  match done r with
  | Some h => call E h (set_text c (Some b)) ;; ret true
  | None => ret true
  end.

(** The items of the menu at [r]. *)
Definition items_at (w : World) (r : ref) : option (list MenuItem) :=
  o ← objects w !! r;
  match kind o with
  | KIntercept _ (SMenu m) => Some (items m)
  | _ => None
  end.

(** The [restore_parser] attribute of the intercept at [r]. *)
Definition restore_parser_at (w : World) (r : ref) : option (option ref) :=
  o ← objects w !! r;
  match kind o with
  | KIntercept i _ => Some (restore_parser i)
  | KParser => None
  end.

(** The hints of [Parser.explain]: one for every substitution that stands
    for a name of the command, in the order of the substitutions. *)
Definition substitution_hints (p : Parser) (cmd : Command) : list string :=
  (fun kv => "Instead of typing " +:+ quote +:+ kv.2 +:+ command_separator p +:+ quote
             +:+ ", you can type " +:+ kv.1 +:+ ".")
    <$> filter (fun kv => kv.2 ∈ names cmd) (command_substitutions p).

(** The overloads before the one that runs: the caller fails the permission
    of each. *)
Definition all_rejected (E : Callables) (cmds : list Command) (c : Caller) (w : World)
    : Prop :=
  Forall (fun cmd => ok_for E cmd c w = (Ok false, w)) cmds.



(** ** Registration of commands

    [parser.py]: the argument of the functions [make_command_*], a function
    object with its name and documentation string where it has them. *)
Record Function := mkFunction {
  fn : hook;
  __name__ : option string;
  __doc__ : option string
}.

(** [Parser.make_command_names], [make_command_description] and
    [make_command_help]. *)
Definition make_command_names (f : Function) : list string :=
  [default "command" (__name__ f)].

Definition make_command_description (f : Function) : string :=
  match __doc__ f with
  | Some d => if Py.truthy d then d else "No description available."
  | None => "No description available."
  end.

Definition make_command_help (f : Function) : string := "No help available.".

(** The arguments of [Parser.command] that the closure [inner] keeps and,
    being [nonlocal], assigns.  No permission stands for the default of
    [allowed] too, a function that permits every caller. *)
Record Decorator := mkDecorator {
  d_names : list string;
  d_description : string;
  d_help : string;
  d_args_regexp : option Pattern;
  d_allowed : option hook
}.

(** One turn of the loop [for name in c.names] on the dictionary
    [self.commands]. *)
Definition append_command (c : Command) (cmds : gmap string (list Command))
    (name : string) : gmap string (list Command) :=
  <[name := default [] (cmds !! name) ++ [c]]> cmds.

(** The variables of the closure after the four assignments [x = x or ...]
    at the head of [inner]. *)
Definition resolve (default_args_regexp : option Pattern) (d : Decorator)
    (f : Function) : Decorator :=
  mkDecorator
    (match d_names d with [] => make_command_names f | l => l end)
    (if Py.truthy (d_description d) then d_description d else make_command_description f)
    (if Py.truthy (d_help d) then d_help d else make_command_help f)
    (match d_args_regexp d with Some r => Some r | None => default_args_regexp end)
    (d_allowed d).

(** [inner(func)] of [Parser.command], as a step on the dictionary
    [self.commands] and on the [nonlocal] variables of the closure: the
    command made, the closure and the dictionary as the call leaves them.
    The names are given as a list and the patterns compiled; the lists of
    the dictionary are those this loop makes, one under each name. *)
Definition Parser_command_inner (default_args_regexp : option Pattern)
    (d : Decorator) (f : Function) (cmds : gmap string (list Command))
    : Command * Decorator * gmap string (list Command) :=
  let d := resolve default_args_regexp d f in
  let c := mkCommand (fn f) (d_names d) (d_description d) (d_help d)
                     (d_args_regexp d) (d_allowed d) in
  (c, d, foldl (append_command c) cmds (names c)).

(** ** Permissions

    [permissions.py]: validators take the caller and may read the state,
    change it or raise. *)

Definition anyone (caller : Caller) : M bool := ret true.

(** [all(g)] and [any(g)] over a generator [g] of results still to be
    computed. *)
Fixpoint py_all (g : list (M bool)) : M bool :=
  match g with
  | [] => ret true
  | x :: rest => b <- x ;; if b then py_all rest else ret false
  end.

Fixpoint py_any (g : list (M bool)) : M bool :=
  match g with
  | [] => ret false
  | x :: rest => b <- x ;; if b then ret true else py_any rest
  end.

(** [FuncPermission(validators, func)(caller)]. *)
Definition FuncPermission (validators : list (Caller -> M bool))
    (func : list (M bool) -> M bool) (caller : Caller) : M bool :=
  func ((fun x => x caller) <$> validators).

Definition and_ (validators : list (Caller -> M bool)) : Caller -> M bool :=
  FuncPermission validators py_all.

Definition or_ (validators : list (Caller -> M bool)) : Caller -> M bool :=
  FuncPermission validators py_any.

(** A validator that only reads. *)
Definition reads (f : Caller -> World -> bool) (caller : Caller) : M bool :=
  fun w => (Ok (f caller w), w).

(** The validator that says the opposite. *)
Definition opposite (v : Caller -> M bool) (caller : Caller) : M bool :=
  b <- v caller ;; ret (negb b).

(** ** More vocabulary

    The lines [Menu.send_items] sends for the items [its]. *)
Definition menu_lines (m : Menu) (its : list MenuItem) : list string :=
  labels_after (labels m) None
  ++ concat ((fun i => as_string i :: labels_after (labels m) (Some (item_id i))) <$> its).

(** The line of the item at position [k] of a menu: its number, counted
    from one, and its label. *)
Definition numbered (k : nat) (i : MenuItem) : string :=
  "[" +:+ Py.str_of_nat (k + 1) +:+ "] " +:+ item_text i.

(** The events of [connection.parser = value] up to the attach hook. *)
Definition swap_events (old : option ref) (value : ref) : list Event :=
  match old with Some p => [on_detach_call p (Some value)] | None => [] end
  ++ [print value; on_attach_call value old].

(** ** Registration on several parsers

    [self.commands] is a reference to a dictionary: [Parser.__init__] stores
    its argument [commands], whose default [{}] is one object, made when the
    [def] statement runs.  The dictionaries are kept by reference, a
    reference that is not in the store yet being an empty dictionary.  Of a
    parser the registration reads [default_args_regexp] and [commands]. *)

(** The dictionary that is the default of [commands]. *)
Definition default_commands : ref := 0.

Record ParserRef := mkParserRef {
  self_default_args_regexp : option Pattern;
  self_commands : ref
}.

(** [Parser(default_args_regexp=..., commands=...)]. *)
Definition Parser_new (default_args_regexp : option Pattern) (commands : option ref)
    : ParserRef :=
  mkParserRef default_args_regexp (default default_commands commands).

Definition commands_of (ds : gmap ref (gmap string (list Command))) (r : ref)
    : gmap string (list Command) :=
  default ∅ (ds !! r).

(** [parser.command(names=...)(func)]: every call of [command] makes a new
    closure. *)
Definition Parser_command (p : ParserRef) (d : Decorator) (f : Function)
    (ds : gmap ref (gmap string (list Command)))
    : Command * gmap ref (gmap string (list Command)) :=
  let r := Parser_command_inner (self_default_args_regexp p) d f
             (commands_of ds (self_commands p)) in
  (r.1.1, <[self_commands p := r.2]> ds).

(** [util.command_parsers(parsers, names=...)(func)]. *)
Definition command_parsers (parsers : list ParserRef) (d : Decorator) (f : Function)
    (ds : gmap ref (gmap string (list Command)))
    : gmap ref (gmap string (list Command)) :=
  foldl (fun ds p => (Parser_command p d f ds).2) ds parsers.

(** [parser.get_commands(name)]. *)
Definition get_commands_of (ds : gmap ref (gmap string (list Command)))
    (p : ParserRef) (name : string) : list Command :=
  default [] (commands_of ds (self_commands p) !! name).

(** The entries that registering [c] adds under [name]: one for every time
    [name] is among the names of [c]. *)
Definition copies (name : string) (c : Command) : list Command :=
  replicate (length (filter (fun n => n = name) (names c))) c.

(** ** Concrete sessions

    Callables that record each invocation; [script] tells which hooks
    raise, and [permits] which permission predicates pass.  Nothing was
    registered on the dictionaries that parsers share, unless a session
    says so. *)

Module Session.

Definition record_call (h : hook) (c : Caller) (w : World) : World :=
  mkWorld (objects w) (_parser w) (default_parser w) (spell_checker w)
          (trace w ++ [called h c]).

Definition tracing (script : hook -> option exn) (permits : hook -> bool) : Callables :=
  mkCallables
    (fun h c w => (script h, c, record_call h c w))
    (fun h c _ w => (script h, c, record_call h c w))
    (fun h _ _ => permits h).

(** Every callable returns normally and every permission passes. *)
Definition quiet : Callables := tracing (fun _ => None) (fun _ => true).

(** A session whose baseline dispatcher is a plain [Parser] at [0]. *)
Definition world (objs : gmap ref Obj) : World :=
  mkWorld objs (Some 0) 0 false [].

Definition baseline : Obj := mkObj Parser_init KParser.

(** The lines sent to the connection. *)
Definition sent (w : World) : list string :=
  omap (fun e => match e with sendLine s => Some s | _ => None end) (trace w).

(** The callables invoked, with the text of the caller they received. *)
Definition calls (w : World) : list (hook * option string) :=
  omap (fun e => match e with called h c => Some (h, text c) | _ => None end) (trace w).

(** Feeding lines to the connection, one after the other. *)
Fixpoint feed (E : Callables) (lines : list string) : M unit :=
  match lines with
  | [] => ret tt
  | l :: rest => lineReceived E l ;; feed E rest
  end.

Definition nl : string := String (ascii_of_nat 10) EmptyString.

(** *** Overloads of one name

    A parser with two overloads of [go]: the handler of the first one
    raises, the second one returns. *)
Definition go1 : Command := mkCommand 1 ["go"] "Go." "go" None None.
Definition go2 : Command := mkCommand 2 ["go"] "Go somewhere." "go <where>" None None.

Definition faulty : Callables :=
  tracing (fun h => if decide (h = 1) then Some (UserException 0) else None)
          (fun _ => true).

Definition two_overloads : World :=
  world {[0 := mkObj (mkParser " " {["go" := [go1; go2]]} []) KParser]}.

(** A parser where [say] wants a text, with a second overload behind it, and
    [!] stands for [say]. *)
Definition some_text : Pattern :=
  fun s => match s with
           | EmptyString => None
           | _ => Some ([Some s], [])
           end.

Definition say1 : Command :=
  mkCommand 3 ["say"] "Say something." "say <text>" (Some some_text) None.
Definition say2 : Command :=
  mkCommand 4 ["say"] "Say nothing." "say" None None.

Definition chat_parser : Obj :=
  mkObj (mkParser " " {["say" := [say1; say2]]} [("!", "say")]) KParser.

Definition chat : World := world {[0 := chat_parser]}.

(** A parser whose only [look] command is reserved to callers that pass
    permission [5]; nobody does. *)
Definition look : Command := mkCommand 6 ["look"] "Look." "look" None (Some 5).

Definition strict : Callables := tracing (fun _ => None) (fun h => negb (h =? 5)).

Definition guarded_parser : Obj := mkObj (mkParser " " {["look" := [look]]} []) KParser.

Definition guarded : World := world {[0 := guarded_parser]}.

(** The same [look] with a second overload behind it that is open to
    everybody. *)
Definition look_open : Command := mkCommand 7 ["look"] "Look around." "look" None None.

Definition half_guarded_parser : Obj :=
  mkObj (mkParser " " {["look" := [look; look_open]]} []) KParser.

Definition half_guarded : World := world {[0 := half_guarded_parser]}.

(** *** Menus *)

Definition default_prompt : text_or_callable := Text "Type a number or @abort to abort.".

(** [Menu()]. *)
Definition empty_menu : Obj :=
  Menu_init ∅ [] "Select an item:" [] [] default_prompt None None false.

Definition apple : MenuItem := MenuItem_init 1 "Apple" 11.
Definition apricot : MenuItem := MenuItem_init 2 "Apricot" 12.
Definition banana : MenuItem := MenuItem_init 3 "Banana" 13.

Definition fruit_menu : Menu :=
  mkMenu "Select an item:" [set_index apple 1; set_index apricot 2; set_index banana 3]
         [] default_prompt None None false.

Definition fruit : Obj :=
  Menu_init ∅ [] "Select an item:" [apple; apricot; banana] [] default_prompt None None false.

Definition crate : Obj :=
  Menu_init ∅ [] "Select an item:" [MenuItem_init 1 "10 apples" 11; MenuItem_init 2 "Banana" 12]
            [] default_prompt None None false.

Definition menu_session (m : Obj) : World :=
  mkWorld (<[1 := m]> {[0 := baseline]}) (Some 1) 0 false [].

(** *** Readers *)

(** [Reader(multiline=True, done=f)], [Reader(buffer="x", done=f)] and
    [Reader(done=f)]. *)
Definition notes_reader : Reader :=
  mkReader None nl "." ".spell" true None None "" (Some 9).
Definition one_line_reader : Reader :=
  mkReader None nl "." ".spell" false None None "" (Some 9).

Definition notes : Obj := Reader_init ∅ [] None nl "." ".spell" true None None "" (Some 9).
Definition prefilled : Obj := Reader_init ∅ [] None nl "." ".spell" false None None "x" (Some 9).
Definition one_line : Obj := Reader_init ∅ [] None nl "." ".spell" false None None "" (Some 9).

Definition reader_session (r : Obj) : World :=
  mkWorld (<[1 := r]> {[0 := baseline]}) (Some 1) 0 false [].

(** *** A question asked from inside a menu *)

Definition sure_question : YesOrNo := mkYesOrNo "Are you sure?" 21 (Some 22) "yes or no?".

Definition sure : Obj := YesOrNo_init ∅ [] "Are you sure?" 21 (Some 22) (Some "yes or no?").

Definition asking : World :=
  mkWorld (<[1 := sure]> {[0 := baseline]}) (Some 1) 0 false [].

(** The baseline parser at [0], a menu at [1] and a question at [2]. *)
Definition nested : World :=
  world (<[2 := sure]> (<[1 := fruit]> {[0 := baseline]})).




(** *** Registration

    [@parser.command(names=["north"])] on [go_north], in an empty parser. *)
Definition go_north : Function := mkFunction 7 (Some "go_north") (Some "Go north.").
Definition north : Decorator := mkDecorator ["north"] "" "" None None.
Definition compass_parser : Obj :=
  mkObj (mkParser " " (Parser_command_inner None north go_north ∅).2 []) KParser.
Definition compass : World := world {[0 := compass_parser]}.

(** *** Permissions: one that refuses and one that raises. *)
Definition nobody : Caller -> M bool := reads (fun _ _ => false).
Definition broken : Caller -> M bool := fun _ => raise ValueError.

(** The handler of the first [go] asks the loop to go on. *)
Definition eager : Callables :=
  tracing (fun h => if decide (h = 1) then Some DontStopException else None)
          (fun _ => true).

(** A menu that was given the command [say]. *)
Definition talking_menu : Obj :=
  mkObj (mkParser " " {["say" := [say1]]} []) (KIntercept Intercept_default (SMenu fruit_menu)).

(** A question whose [no_abort] was set to a text. *)
Definition stubborn_intercept : Intercept :=
  mkIntercept "@abort" (Text "Aborted") (Some (Text "You cannot abort.")) None.
Definition stubborn : Obj :=
  mkObj Parser_init (KIntercept stubborn_intercept (SYesOrNo sure_question)).

(** [Menu(items=..., persistent=True)]. *)
Definition persistent_fruit_menu : Menu :=
  mkMenu "Select an item:" [set_index apple 1; set_index apricot 2; set_index banana 3]
         [] default_prompt None None true.
Definition persistent_fruit : Obj :=
  Menu_init ∅ [] "Select an item:" [apple; apricot; banana] [] default_prompt None None true.

End Session.

(** ** Properties *)

Arguments Py.startswith : simpl never.
Arguments Py.lower : simpl never.
Arguments Py.int : simpl never.
Arguments Py.getitem : simpl never.
Arguments Py.join : simpl never.
Arguments Py.partition : simpl never.

Section Facts.

Variable E : Callables.

(** *** Reading the store, sending lines *)

Lemma bind_ok {A B} (m : M A) (k : A -> M B) w a w' :
  m w = (Ok a, w') -> bind m k w = k a w'.
Proof. intros H. unfold bind. by rewrite H. Qed.

Lemma get_obj_found w self o :
  objects w !! self = Some o -> get_obj self w = (Ok o, w).
Proof. intros H. unfold get_obj. by rewrite H. Qed.

Lemma get_intercept_found w self p i s :
  objects w !! self = Some (mkObj p (KIntercept i s)) ->
  get_intercept self w = (Ok i, w).
Proof. intros H. unfold get_intercept, bind. by rewrite (get_obj_found _ _ _ H). Qed.

Lemma get_menu_found w self p i m :
  objects w !! self = Some (mkObj p (KIntercept i (SMenu m))) ->
  get_menu self w = (Ok m, w).
Proof. intros H. unfold get_menu, bind. by rewrite (get_obj_found _ _ _ H). Qed.

Lemma get_reader_found w self p i r :
  objects w !! self = Some (mkObj p (KIntercept i (SReader r))) ->
  get_reader self w = (Ok r, w).
Proof. intros H. unfold get_reader, bind. by rewrite (get_obj_found _ _ _ H). Qed.


Lemma sends_nil w : sends [] w = w.
Proof. destruct w. unfold sends. simpl. by rewrite app_nil_r. Qed.

Lemma sends_sends a b w : sends b (sends a w) = sends (a ++ b) w.
Proof. unfold sends. simpl. by rewrite fmap_app, app_assoc. Qed.

Lemma notify_sends line w : notify line w = (Ok tt, sends [line] w).
Proof. reflexivity. Qed.

Lemma notify_all_sends l w : notify_all l w = (Ok tt, sends l w).
Proof.
  revert w. induction l as [|x l IH]; intros w; simpl.
  - by rewrite sends_nil.
  - unfold bind, notify, emit. simpl. rewrite IH. unfold sends. simpl.
    by rewrite <- app_assoc.
Qed.

Lemma with_obj_same self o w : objects w !! self = Some o -> with_obj self o w = w.
Proof. intros H. destruct w. unfold with_obj. simpl in *. by rewrite insert_id. Qed.

(** *** The setter of the dispatcher *)

(** The setter up to the attach hook. *)
Lemma Protocol_set_parser_attach value w :
  let v := default (default_parser w) value in
  Protocol_set_parser E value w =
  on_attach E v (_parser w)
    (mkWorld (objects w) (Some v) (default_parser w) (spell_checker w)
       (trace w ++ match _parser w with Some p => [on_detach_call p value] | None => [] end
                ++ match value with None => [warn_fallback (default_parser w)] | Some _ => [] end
                ++ [print v])).
Proof.
  destruct w as [objs cur d sp tr]. simpl.
  unfold Protocol_set_parser, bind, get, on_detach, emit, store_parser, ret. simpl.
  destruct cur as [p|], value as [v|]; simpl; rewrite <- ?app_assoc; reflexivity.
Qed.

Lemma on_attach_plain v old p w :
  objects w !! v = Some (mkObj p KParser) ->
  on_attach E v old w =
  (Ok tt, mkWorld (objects w) (_parser w) (default_parser w) (spell_checker w)
            (trace w ++ [on_attach_call v old])).
Proof.
  intros H. unfold on_attach, bind, emit. simpl.
  unfold get_obj. simpl. by rewrite H.
Qed.

(** C5.  Assigning [None] to the dispatcher of a connection whose current
    dispatcher is [P]: [P.on_detach] is called, the warning is logged, the
    baseline dispatcher is stored and its [on_attach] is called with [P], in
    a state where the connection already has the baseline as dispatcher.
    When the baseline is a plain [Parser] (whose [on_attach] does nothing)
    this is the state the assignment ends in. *)
Theorem set_parser_None_falls_back w P :
  _parser w = Some P ->
  let d := default_parser w in
  (exists w1,
      Protocol_set_parser E None w = on_attach E d (Some P) w1 /\
      _parser w1 = Some d /\
      objects w1 = objects w /\
      trace w1 = trace w ++ [on_detach_call P None; warn_fallback d; print d]) /\
  (forall p, objects w !! d = Some (mkObj p KParser) ->
    exists w2,
      Protocol_set_parser E None w = (Ok tt, w2) /\
      _parser w2 = Some d /\
      objects w2 = objects w /\
      trace w2 = trace w ++ [on_detach_call P None; warn_fallback d; print d;
                             on_attach_call d (Some P)]).
Proof.
  intros HP d. split.
  - eexists. split; [rewrite Protocol_set_parser_attach; rewrite HP; reflexivity|].
    simpl. done.
  - intros p Hd. eexists. split.
    + rewrite Protocol_set_parser_attach. rewrite HP. simpl.
      erewrite on_attach_plain by (simpl; exact Hd). reflexivity.
    + simpl. rewrite <- app_assoc. done.
Qed.

(** *** The object store is written by callables only *)

Lemma keeps_ret {A} (a : A) : keeps_objects (ret a).
Proof. done. Qed.

Lemma keeps_raise {A} e : keeps_objects (@raise A e).
Proof. done. Qed.

Lemma keeps_emit e : keeps_objects (emit e).
Proof. done. Qed.

Lemma keeps_get : keeps_objects get.
Proof. done. Qed.

Lemma keeps_store_parser v : keeps_objects (store_parser v).
Proof. done. Qed.

Lemma keeps_get_obj r : keeps_objects (get_obj r).
Proof. intros w. unfold get_obj. by destruct (objects w !! r). Qed.

Lemma keeps_bind {A B} (m : M A) (k : A -> M B) :
  keeps_objects m -> (forall a, keeps_objects (k a)) -> keeps_objects (bind m k).
Proof.
  intros Hm Hk w. unfold bind. specialize (Hm w).
  destruct (m w) as [[a|e] w1]; simpl in *; [|done].
  by rewrite Hk.
Qed.

Lemma keeps_call h c : callables_keep_objects E -> keeps_objects (call E h c).
Proof.
  intros HE w. unfold call. destruct (HE h c w) as [H _].
  by destruct (call_hook E h c w) as [[[e|] c'] w'].
Qed.

#[local] Create HintDb keeps.
#[local] Hint Resolve keeps_ret keeps_raise keeps_emit keeps_get keeps_get_obj
  keeps_store_parser keeps_call : keeps.

Ltac keeps :=
  repeat first
    [ solve [eauto with keeps]
    | apply keeps_bind; [|intros ?]
    | match goal with
      | |- keeps_objects (match ?x with _ => _ end) => destruct x
      | |- keeps_objects (if ?x then _ else _) => destruct x
      end ].

Lemma keeps_get_menu r : keeps_objects (get_menu r).
Proof. unfold get_menu. keeps. Qed.

Lemma keeps_get_reader r : keeps_objects (get_reader r).
Proof. unfold get_reader. keeps. Qed.

Lemma keeps_get_yesorno r : keeps_objects (get_yesorno r).
Proof. unfold get_yesorno. keeps. Qed.

Lemma keeps_get_intercept r : keeps_objects (get_intercept r).
Proof. unfold get_intercept. keeps. Qed.

Lemma keeps_notify_all l : keeps_objects (notify_all l).
Proof. induction l; simpl; unfold notify; keeps. Qed.

#[local] Hint Resolve keeps_get_menu keeps_get_reader keeps_get_yesorno
  keeps_get_intercept keeps_notify_all : keeps.

Lemma keeps_send v c : callables_keep_objects E -> keeps_objects (send E v c).
Proof. intros HE. unfold send, notify. keeps. Qed.

#[local] Hint Resolve keeps_send : keeps.

Lemma keeps_explain self : callables_keep_objects E -> keeps_objects (explain E self).
Proof.
  intros HE.
  unfold explain, Menu_explain, Menu_send_items, Reader_explain, YesOrNo_explain, notify.
  keeps.
Qed.

#[local] Hint Resolve keeps_explain : keeps.

Lemma keeps_set_parser value :
  callables_keep_objects E -> keeps_objects (Protocol_set_parser E value).
Proof.
  intros HE. unfold Protocol_set_parser, on_detach, on_attach. keeps.
Qed.

(** *** Abort *)

Lemma Intercept_huh_other self p i s c w :
  objects w !! self = Some (mkObj p (KIntercept i s)) ->
  text c <> Some (abort_command i) ->
  Intercept_huh E self c w = (Ok (false, c), w).
Proof.
  intros H Hne. unfold Intercept_huh, bind.
  rewrite (get_intercept_found _ _ _ _ _ H).
  by destruct (decide _).
Qed.

(** C2, as amended.  Attaching an intercept to a connection leaves its
    [restore_parser] as it was, whatever dispatcher it replaces (the object
    store is only written by callables).  A successful abort hands the
    intercept's own [restore_parser] to the connection: the attach hook of
    [restore_parser], or of the baseline when [restore_parser] is [None],
    runs in a state where that dispatcher is the current one, and when it
    is a plain [Parser] this is the dispatcher the abort ends with. *)
Theorem abort_assigns_restore_parser self p i s w :
  objects w !! self = Some (mkObj p (KIntercept i s)) ->
  let target := default (default_parser w) (restore_parser i) in
  (callables_keep_objects E ->
   forall w0 res w',
     objects w0 = objects w ->
     Protocol_set_parser E (Some self) w0 = (res, w') ->
     objects w' !! self = Some (mkObj p (KIntercept i s))) /\
  (forall c line,
     text c = Some (abort_command i) ->
     connection c = Some this_connection ->
     truthy_value (no_abort i) = false ->
     aborted i = Text line ->
     (exists w1,
        Intercept_huh E self c w = (on_attach E target (_parser w) ;; ret (true, c)) w1 /\
        _parser w1 = Some target /\
        objects w1 = objects w) /\
     (forall q, objects w !! target = Some (mkObj q KParser) ->
        exists w2,
          Intercept_huh E self c w = (Ok (true, c), w2) /\
          _parser w2 = Some target /\
          objects w2 = objects w)).
Proof.
  intros Ho target. split.
  - intros HE w0 res w' Hobj Hrun.
    pose proof (keeps_set_parser (Some self) HE w0) as Hk.
    rewrite Hrun in Hk. simpl in Hk. by rewrite Hk, Hobj.
  - intros c line Ht Hc Hna Hab.
    assert (Hh : Intercept_huh E self c w =
                 (Protocol_set_parser E (restore_parser i) ;; ret (true, c))
                   (sends [line] w)).
    { unfold Intercept_huh, bind. rewrite (get_intercept_found _ _ _ _ _ Ho).
      rewrite decide_True by done.
      unfold Intercept_do_abort, bind. rewrite (get_intercept_found _ _ _ _ _ Ho).
      rewrite Hna, Hab. simpl. rewrite Hc. unfold bind, notify, emit. simpl.
      rewrite Hc. unfold get_intercept, bind, get_obj. simpl. rewrite Ho. simpl.
      unfold sends. simpl.
      by destruct (Protocol_set_parser E (restore_parser i) _) as [[[]|e] w2]. }
    split.
    + eexists. split.
      * rewrite Hh. unfold bind at 1. rewrite Protocol_set_parser_attach.
        simpl. reflexivity.
      * done.
    + intros q Hq. eexists. split.
      * rewrite Hh. unfold bind at 1. rewrite Protocol_set_parser_attach. simpl.
        erewrite on_attach_plain by (simpl; exact Hq). reflexivity.
      * done.
Qed.

(** *** The overload loop *)

Lemma for_commands_app self pre post a c n w :
  for_commands E self (pre ++ post) a c n w =
  match for_commands E self pre a c n w with
  | (Ok (Exhausted, c', n'), w') => for_commands E self post a c' n' w'
  | r => r
  end.
Proof.
  revert c n w. induction pre as [|cmd pre IH]; intros c n w; [done|].
  simpl. unfold bind.
  destruct (ok_for E cmd c w) as [[[]|e] w1]; [| by rewrite IH | done].
  destruct (match args_regexp cmd with Some re => re a | None => Some ([], []) end) as [m|].
  - destruct (try_call E (func cmd) (set_args c m.1 m.2) w1) as [[[oe c1]|e] w2]; [|done].
    simpl. destruct oe as [e|]; [|done].
    destruct e; try (by rewrite IH);
      unfold on_error, notify, emit; simpl;
      destruct (connection _); simpl; by rewrite IH.
  - destruct (connection c); [|done].
    by destruct (explain_command self cmd w1) as [[[]|e] w2].
Qed.

Lemma for_commands_fault self cmd rest a c n w e c1 w1 :
  ok_for E cmd c w = (Ok true, w) ->
  args_regexp cmd = None ->
  call_hook E (func cmd) (set_args c [] []) w = (Some e, c1, w1) ->
  e <> DontStopException ->
  for_commands E self (cmd :: rest) a c n w =
  (emit (warn_error self (names cmd)) ;;
   emit (log_exception e) ;;
   on_error self (set_exception c1 e) ;;
   for_commands E self rest a (set_exception c1 e) (n + 1)) w1.
Proof.
  intros Hok Hre Hcall He. simpl. unfold bind at 1. rewrite Hok, Hre.
  unfold bind at 1. unfold try_call. simpl. rewrite Hcall. simpl.
  by destruct e.
Qed.

Lemma for_commands_rejected self pre rest a c n w :
  all_rejected E pre c w ->
  for_commands E self (pre ++ rest) a c n w = for_commands E self rest a c n w.
Proof.
  induction pre as [|cmd pre IH]; intros Hall; [done|].
  inversion Hall as [|? ? Hno Hrest]; subst.
  cbn [app for_commands]. unfold bind at 1. rewrite Hno. by apply IH.
Qed.

(** C4.  Overloads whose permission predicate rejects the caller are passed
    over in the state they were reached in (so nothing is sent) and the loop
    goes on with the overload behind them: when that one is permitted and
    its pattern matches, its handler is called, with the groups of the
    match, in that very state.  When every overload of the dispatched name
    is rejected, or none is registered, [handle_line] calls [huh] and
    returns [None]; for a plain [Parser] this sends the notice of
    [Parser.huh]. *)
Theorem handle_line_permission_skip self o line name a w :
  objects w !! self = Some o ->
  Parser_split (parser_of o) (substitute (parser_of o) line) w = (Ok (name, a), w) ->
  let caller := set_command (line_caller (substitute (parser_of o) line)) name a in
  (forall pre rest c n w',
      all_rejected E pre c w' ->
      for_commands E self (pre ++ rest) a c n w' = for_commands E self rest a c n w') /\
  (forall pre cmd post m c2 w2,
      get_commands (parser_of o) name = pre ++ cmd :: post ->
      all_rejected E pre caller w ->
      ok_for E cmd caller w = (Ok true, w) ->
      match args_regexp cmd with None => Some ([], []) | Some re => re a end = Some m ->
      call_hook E (func cmd) (set_args caller m.1 m.2) w = (None, c2, w2) ->
      handle_line E self line w = (Ok (Some 1), w2)) /\
  (all_rejected E (get_commands (parser_of o) name) caller w ->
   handle_line E self line w = (huh E self caller ;; ret None) w) /\
  (all_rejected E (get_commands (parser_of o) name) caller w ->
   kind o = KParser ->
   handle_line E self line w =
   (Ok None, mkWorld (objects w) (_parser w) (default_parser w) (spell_checker w)
               (trace w ++ [sendLine "I don't understand that."]))).
Proof.
  intros Ho Hs caller.
  assert (Hloop : handle_line E self line w =
    (r <- for_commands E self (get_commands (parser_of o) name) a caller 0 ;;
     match r.1.1 with
     | Exhausted => if r.2 =? 0 then huh E self r.1.2 ;; ret tt else ret tt
     | Break => ret tt
     end ;;
     ret (if r.2 =? 0 then None else Some r.2)) w).
  { unfold handle_line. unfold bind at 1.
    rewrite (get_obj_found _ _ _ Ho). cbn [pre_command negb].
    unfold bind at 1. rewrite Hs. reflexivity. }
  assert (Hh : all_rejected E (get_commands (parser_of o) name) caller w ->
          handle_line E self line w = (huh E self caller ;; ret None) w).
  { intros Hall. rewrite Hloop. unfold bind at 1.
    rewrite <- (app_nil_r (get_commands _ _)), (for_commands_rejected _ _ _ _ _ _ _ Hall).
    cbn. unfold bind. by destruct (huh E self caller w) as [[]]. }
  split; [|split; [|split]]; [| | exact Hh |].
  - intros pre rest c n w'. apply for_commands_rejected.
  - intros pre cmd post m c2 w2 Hc Hall Hok Hm Hcall.
    rewrite Hloop. unfold bind at 1.
    rewrite Hc, (for_commands_rejected _ _ _ _ _ _ _ Hall).
    cbn [for_commands]. unfold bind at 1. rewrite Hok, Hm.
    unfold bind at 1. unfold try_call. rewrite Hcall. reflexivity.
  - intros Hall Hk. rewrite (Hh Hall). unfold huh, bind.
    rewrite (get_obj_found _ _ _ Ho). rewrite Hk. reflexivity.
Qed.

Lemma explain_substitutions_sends p cmd subs w :
  explain_substitutions p cmd subs w =
  (Ok tt,
   sends ((fun kv => "Instead of typing " +:+ quote +:+ kv.2 +:+ command_separator p
                      +:+ quote +:+ ", you can type " +:+ kv.1 +:+ ".")
            <$> filter (fun kv => kv.2 ∈ names cmd) subs) w).
Proof.
  revert w. induction subs as [|[k v] subs IH]; intros w.
  - cbn. by rewrite sends_nil.
  - cbn [explain_substitutions]. rewrite filter_cons. cbn [snd].
    destruct (decide (v ∈ names cmd)) as [Hin|Hout].
    + rewrite bool_decide_eq_true_2 by done.
      unfold bind at 1. unfold Parser_explain_substitution. rewrite notify_sends.
      rewrite IH, sends_sends. reflexivity.
    + rewrite bool_decide_eq_false_2 by done.
      unfold bind at 1. cbn [ret]. apply IH.
Qed.

Lemma Parser_explain_lines p cmd w :
  Parser_explain p cmd w =
  (Ok tt,
   sends ((Py.join " or " (names cmd) +:+ ":") :: substitution_hints p cmd
            ++ [description cmd; help cmd]) w).
Proof.
  unfold Parser_explain.
  erewrite bind_ok by apply notify_sends.
  erewrite bind_ok by apply explain_substitutions_sends.
  erewrite bind_ok by apply notify_sends.
  rewrite notify_sends, !sends_sends. unfold substitution_hints.
  reflexivity.
Qed.

(** C3.  When the loop reaches overload [cmd] at position [length pre], its
    permission passes and its pattern does not match the argument string,
    [handle_line] calls [self.explain(cmd, connection)] and returns: the
    result does not depend on the overloads [post] behind it.  On a plain
    [Parser] the explanation is sent: the line of names, a hint for every
    substitution that stands for a name of the command, the description and
    the help.  On a dispatcher derived from [Intercept] the same call raises
    [TypeError], as these classes redefine [explain] with the connection as
    only argument: nothing is sent and the exception leaves [handle_line]. *)
Theorem handle_line_mismatch_stops self o line name a pre cmd post re c1 n1 w w1 :
  objects w !! self = Some o ->
  Parser_split (parser_of o) (substitute (parser_of o) line) w = (Ok (name, a), w) ->
  get_commands (parser_of o) name = pre ++ cmd :: post ->
  for_commands E self pre a
    (set_command (line_caller (substitute (parser_of o) line)) name a) 0 w
    = (Ok (Exhausted, c1, n1), w1) ->
  ok_for E cmd c1 w1 = (Ok true, w1) ->
  args_regexp cmd = Some re ->
  re a = None ->
  connection c1 = Some this_connection ->
  handle_line E self line w
    = (explain_command self cmd ;; ret (if n1 =? 0 then None else Some n1)) w1 /\
  (forall p1, objects w1 !! self = Some (mkObj p1 KParser) ->
     handle_line E self line w =
     (Ok (if n1 =? 0 then None else Some n1),
      sends ((Py.join " or " (names cmd) +:+ ":") :: substitution_hints p1 cmd
               ++ [description cmd; help cmd]) w1)) /\
  (forall p1 i s, objects w1 !! self = Some (mkObj p1 (KIntercept i s)) ->
     handle_line E self line w = (Raise TypeError, w1)).
Proof.
  intros Ho Hs Hc Hpre Hok Hre Hno Hcon.
  assert (Hh : handle_line E self line w
    = (explain_command self cmd ;; ret (if n1 =? 0 then None else Some n1)) w1).
  { unfold handle_line, bind.
    rewrite (get_obj_found _ _ _ Ho). simpl. rewrite Hs. simpl.
    fold (line_caller (substitute (parser_of o) line)).
    rewrite Hc, for_commands_app, Hpre. simpl. unfold bind.
    rewrite Hok, Hre, Hno, Hcon.
    by destruct (explain_command self cmd w1) as [[[]|e] w2]. }
  split; [exact Hh|]. split.
  - intros p1 H1. rewrite Hh. unfold bind at 1. unfold explain_command.
    erewrite bind_ok by (apply get_obj_found; exact H1). cbn [kind parser_of].
    by rewrite Parser_explain_lines.
  - intros p1 i s H1. rewrite Hh. unfold bind at 1. unfold explain_command.
    erewrite bind_ok by (apply get_obj_found; exact H1). reflexivity.
Qed.

(** *** Menu *)

Lemma getitem_last {A} (l : list A) : l <> [] -> Py.getitem l (-1) = last l.
Proof.
  intros Hl. unfold Py.getitem.
  destruct (0 <=? -1)%Z eqn:H0; [done|].
  destruct l as [|x l]; [done|].
  destruct (- Z.of_nat (length (x :: l)) <=? -1)%Z eqn:H1.
  - rewrite last_lookup. f_equal. simpl length. lia.
  - apply Z.leb_gt in H1. simpl length in H1. lia.
Qed.

Lemma Menu_send_items_sends self p i m its w :
  objects w !! self = Some (mkObj p (KIntercept i (SMenu m))) ->
  exists lines, Menu_send_items self its w = (Ok tt, sends lines w).
Proof.
  intros Ho. unfold Menu_send_items.
  erewrite bind_ok by (by eapply get_menu_found).
  erewrite bind_ok by apply notify_all_sends.
  rewrite notify_all_sends, sends_sends. by eexists.
Qed.

Lemma Menu__multiple_matches_stays self p i m c found line w :
  objects w !! self = Some (mkObj p (KIntercept i (SMenu m))) ->
  menu_prompt m = Text line ->
  exists lines, Menu__multiple_matches self c found w = (Ok c, sends lines w).
Proof.
  intros Ho Hp. unfold Menu__multiple_matches.
  destruct (connection c); [|exists []; by rewrite sends_nil].
  erewrite bind_ok by apply notify_sends.
  destruct (Menu_send_items_sends self p i m (Some found) (sends ["That matched multiple items:"] w) Ho)
    as [lines Hl].
  erewrite bind_ok by exact Hl.
  erewrite bind_ok by (by eapply get_menu_found).
  rewrite Hp. unfold notify_value.
  erewrite bind_ok by apply notify_sends.
  rewrite !sends_sends. by eexists.
Qed.

Lemma Menu_match_empty_text self p i m c w :
  objects w !! self = Some (mkObj p (KIntercept i (SMenu m))) ->
  text c = None \/ text c = Some EmptyString ->
  Menu_match E self c w = (Ok (None, c), w).
Proof.
  intros Ho Ht. unfold Menu_match, bind. rewrite (get_menu_found _ _ _ _ _ Ho).
  by destruct Ht as [-> | ->].
Qed.

Lemma Menu_init_indices cmds subs title its lbls prompt nm mm pers m k it :
  NoDup (item_id <$> its) ->
  kind (Menu_init cmds subs title its lbls prompt nm mm pers)
    = KIntercept Intercept_default (SMenu m) ->
  items m !! k = Some it ->
  index it = k + 1.
Proof.
  intros Hnd Hk Hit. injection Hk as <-. simpl in Hit.
  rewrite list_lookup_fmap in Hit.
  destruct (its !! k) as [i0|] eqn:Hi0; simplify_eq/=.
  f_equal. unfold first_position.
  assert (Hf : list_find (fun i => item_id i = item_id i0) its = Some (k, i0)).
  { apply list_find_Some. split; [done|]. split; [done|].
    intros j y Hj Hlt Heq.
    assert (j = k); [|lia].
    eapply NoDup_lookup; [exact Hnd| |].
    - rewrite list_lookup_fmap, Hj. simpl. by rewrite Heq.
    - by rewrite list_lookup_fmap, Hi0. }
  by rewrite Hf.
Qed.

(** C6, as amended.  [Menu.match] on a non-empty text, lowered to [tx]:
    [$] selects the last item of a non-empty menu; a text that reads as an
    integer [n] selects the item at index [n - 1] when [n > 0] and at the
    raw index [n] otherwise, when that index exists; a text that is no
    integer, or whose index is out of range, goes to the prefix match over
    the lowered labels, which selects a single match, calls the no-match
    hook when there is none and the multiple-match hook when there are
    several.  The default multiple-match hook only sends lines, so the menu
    stays the dispatcher. *)
Theorem Menu_match_selection self p i m c t w :
  objects w !! self = Some (mkObj p (KIntercept i (SMenu m))) ->
  text c = Some t ->
  t <> EmptyString ->
  let tx := Py.lower t in
  let by_number :=
    n ← Py.int tx; Py.getitem (items m) (if (0 <? n)%Z then (n - 1)%Z else n) in
  (tx = "$" -> items m <> [] ->
     Menu_match E self c w = (Ok (last (items m), c), w)) /\
  (tx <> "$" -> forall it, by_number = Some it ->
     Menu_match E self c w = (Ok (Some it, c), w)) /\
  (tx <> "$" -> by_number = None ->
     match prefix_matches tx (items m) with
     | [] =>
         Menu_match E self c w =
         (c' <- match no_matches m with
                | None => Menu__no_matches E self c
                | Some h => call E h c
                end ;;
          ret (None, c')) w
     | [it] => Menu_match E self c w = (Ok (Some it, c), w)
     | found =>
         Menu_match E self c w =
         (c' <- match multiple_matches m with
                | None => Menu__multiple_matches self c found
                | Some h => call2 E h c found
                end ;;
          ret (None, c')) w
     end) /\
  (forall found line, menu_prompt m = Text line ->
     exists lines, Menu__multiple_matches self c found w = (Ok c, sends lines w)).
Proof.
  intros Ho Ht Hne tx by_number.
  assert (Hlow : Py.truthy tx = true).
  { subst tx. destruct t; [done|]. reflexivity. }
  assert (Hm : Menu_match E self c w =
     (if decide (tx = "$")
      then match Py.getitem (items m) (-1) with
           | Some i => ret (Some i, c)
           | None => raise IndexError
           end
      else match by_number with
           | Some i => ret (Some i, c)
           | None =>
               match prefix_matches tx (items m) with
               | [] => c' <- match no_matches m with
                             | None => Menu__no_matches E self c
                             | Some h => call E h c
                             end ;; ret (None, c')
               | [i] => ret (Some i, c)
               | found => c' <- match multiple_matches m with
                                | None => Menu__multiple_matches self c found
                                | Some h => call2 E h c found
                                end ;; ret (None, c')
               end
           end) w).
  { unfold Menu_match, bind. rewrite (get_menu_found _ _ _ _ _ Ho), Ht.
    destruct t as [|a t']; [done|]. fold tx. fold by_number.
    destruct (decide (tx = "$")); [done|].
    destruct by_number; [done|]. rewrite Hlow.
    by destruct (prefix_matches tx (items m)) as [|x [|y l]]. }
  rewrite Hm. split; [|split; [|split]].
  - intros Hd Hi. rewrite decide_True by done.
    rewrite getitem_last by done.
    destruct (last (items m)) eqn:Hl; [done|].
    apply last_None in Hl. done.
  - intros Hd it Hn. rewrite decide_False by done. by rewrite Hn.
  - intros Hd Hn. rewrite decide_False by done. rewrite Hn.
    destruct (prefix_matches tx (items m)) as [|x [|y l]]; reflexivity.
  - intros found line Hp. by eapply Menu__multiple_matches_stays.
Qed.

(** *** Reader *)

Lemma send_opt_literal v c w :
  is_callable v = false -> connection c = Some this_connection ->
  send_opt E v c w = (Ok c, sends (literal v) w).
Proof.
  intros Hv Hc. destruct v as [[s|h]|]; try done; simpl.
  - rewrite Hc. reflexivity.
  - by rewrite sends_nil.
Qed.

Lemma assign_buffer_found self o i r b w :
  objects w !! self = Some o -> kind o = KIntercept i (SReader r) ->
  assign_buffer self b w = (Ok tt, with_obj self (with_buffer o b) w).
Proof.
  intros H Hk. unfold assign_buffer, bind. rewrite (get_obj_found _ _ _ H).
  unfold with_buffer. rewrite Hk. reflexivity.
Qed.

Lemma string_app_assoc (a b c : string) : (a +:+ b) +:+ c = a +:+ (b +:+ c).
Proof.
  induction a as [|x a IH]; [done|].
  change (String x ((a +:+ b) +:+ c) = String x (a +:+ (b +:+ c))).
  by rewrite IH.
Qed.

Lemma join_cons sep x y l :
  Py.join sep (x :: y :: l) = x +:+ sep +:+ Py.join sep (y :: l).
Proof. reflexivity. Qed.

Lemma joined_pair sep b l :
  joined sep [b; l] =
  if Py.truthy b && Py.truthy l then Py.join sep [b; l]
  else if Py.truthy l then l else b.
Proof.
  unfold joined. destruct b, l; try done.
Qed.

Lemma joined_single sep b : joined sep [b] = b.
Proof. unfold joined. by destruct b. Qed.

Lemma joined_cons sep b l rest :
  joined sep (joined sep [b; l] :: rest) = joined sep (b :: l :: rest).
Proof.
  unfold joined. rewrite !filter_cons, filter_nil.
  destruct (decide (b <> EmptyString)) as [Hb|Hb], (decide (l <> EmptyString)) as [Hl|Hl].
  - assert (Hx : Py.join sep [b; l] <> EmptyString) by (destruct b; done).
    rewrite decide_True by done.
    destruct (filter _ rest) as [|y ys]; [done|].
    rewrite (join_cons sep b l (y :: ys)), (join_cons sep l y ys).
    rewrite (join_cons sep (Py.join sep [b; l]) y ys).
    change (Py.join sep [b; l]) with (b +:+ sep +:+ l).
    by rewrite !string_app_assoc.
  - change (Py.join sep [b]) with b. by rewrite decide_True.
  - change (Py.join sep [l]) with l. by rewrite decide_True.
  - change (Py.join sep []) with EmptyString. by rewrite decide_False by (intros H; by apply H).
Qed.

Lemma with_buffer_id p i r :
  with_buffer (mkObj p (KIntercept i (SReader r))) (buffer r)
  = mkObj p (KIntercept i (SReader r)).
Proof. unfold with_buffer. simpl. by destruct r. Qed.

(** One accepted line: the buffer after it, and the state in which the
    reader goes on. *)
Lemma Reader_huh_line self p i r line w :
  let c := line_caller line in
  let o := mkObj p (KIntercept i (SReader r)) in
  let b := joined (line_separator r) [buffer r; line] in
  let w1 := with_obj self (with_buffer o b) (sends (literal (after_line r)) w) in
  objects w !! self = Some o ->
  is_callable (after_line r) = false ->
  line <> abort_command i ->
  line <> spell_check_command r ->
  (multiline r = false \/ line <> done_command r) ->
  Reader_huh E self c w =
  (if negb (multiline r)
   then Protocol_set_parser E (restore_parser i) ;;
        r' <- get_reader self ;;
        match done r' with
        | Some h => call E h (set_text c (Some b)) ;; ret true
        | None => ret true
        end
   else send_opt E (before_line r) (set_text c (Some b)) ;; ret false) w1.
Proof.
  intros c o b w1 Ho Hal Hab Hsp Hmode.
  unfold Reader_huh, bind. rewrite (get_reader_found _ _ _ _ _ Ho).
  rewrite send_opt_literal by done.
  set (wa := sends (literal (after_line r)) w).
  assert (Hoa : objects wa !! self = Some o) by exact Ho.
  rewrite (Intercept_huh_other _ _ _ _ _ _ Hoa) by (simpl; congruence).
  simpl. rewrite (get_reader_found _ _ _ _ _ Hoa).
  rewrite decide_False by congruence.
  assert (Hcond : negb (multiline r) || negb (bool_decide (Some line = Some (done_command r))) = true).
  { destruct Hmode as [->|Hd]; [done|].
    rewrite bool_decide_eq_false_2 by congruence. by rewrite orb_true_r. }
  rewrite Hcond.
  assert (Hw1 : (if Py.truthy (buffer r) && Py.truthy line
                 then assign_buffer self (Py.join (line_separator r) [buffer r; line])
                 else if Py.truthy line then assign_buffer self line else ret tt) wa
                = (Ok tt, w1)).
  { subst w1 b. rewrite joined_pair.
    destruct (Py.truthy (buffer r) && Py.truthy line) eqn:Hb.
    - by erewrite assign_buffer_found.
    - destruct (Py.truthy line) eqn:Hl.
      + by erewrite assign_buffer_found.
      + unfold ret. f_equal. symmetry. apply with_obj_same.
        rewrite Hoa. f_equal. unfold with_buffer, o. simpl. by destruct r. }
  rewrite Hw1.
  assert (Ho1 : objects w1 !! self
                = Some (mkObj p (KIntercept i (SReader (set_buffer r b))))).
  { subst w1. unfold with_obj. simpl. by rewrite lookup_insert_eq. }
  rewrite (get_reader_found _ _ _ _ _ Ho1). simpl.
  destruct (multiline r) eqn:Hm; simpl.
  - destruct Hmode as [?|Hd]; [done|].
    rewrite bool_decide_eq_false_2 by congruence.
    by destruct (send_opt E (before_line r) _ w1) as [[]].
  - rewrite (get_intercept_found _ _ _ _ _ Ho1).
    destruct (Protocol_set_parser E (restore_parser i) w1) as [[[]|e] w2]; [|done].
    destruct (get_reader self w2) as [[r2|e] w3]; [|done].
    destruct (done r2); [|done].
    by destruct (call E h _ w3) as [[]].
Qed.

Lemma Reader_accumulates self p i lines : forall r w,
  let o := mkObj p (KIntercept i (SReader r)) in
  objects w !! self = Some o ->
  multiline r = true ->
  is_callable (after_line r) = false ->
  is_callable (before_line r) = false ->
  Forall (fun l => ordinary i r l /\ l <> done_command r) lines ->
  exists w',
    read_lines E self lines w = (Ok tt, w') /\
    _parser w' = _parser w /\
    objects w' = <[self := with_buffer o (joined (line_separator r) (buffer r :: lines))]>
                   (objects w).
Proof.
  induction lines as [|l lines IH]; intros r w o Ho Hm Ha Hb Hall.
  - exists w. split; [done|]. split; [done|].
    rewrite joined_single. subst o. rewrite with_buffer_id. by rewrite insert_id.
  - inversion Hall as [|? ? [[Hab Hsp] Hd] Hrest]; subst.
    simpl. unfold bind.
    rewrite (Reader_huh_line self p i r l w Ho Ha Hab Hsp (or_intror Hd)).
    rewrite Hm. simpl. unfold bind.
    set (b := joined (line_separator r) [buffer r; l]).
    set (w1 := with_obj self _ _).
    rewrite send_opt_literal by done. simpl.
    set (w2 := sends _ w1).
    destruct (IH (set_buffer r b) w2) as (w' & Hrun & Hp & Hobj); try done.
    { subst w2 w1. simpl. by rewrite lookup_insert_eq. }
    exists w'. split; [exact Hrun|]. split; [by rewrite Hp|].
    rewrite Hobj. subst w2 w1. simpl. rewrite insert_insert_eq.
    subst b. unfold with_buffer. simpl. by rewrite joined_cons.
Qed.

Lemma Reader_huh_finish self p i r w :
  let c := line_caller (done_command r) in
  objects w !! self = Some (mkObj p (KIntercept i (SReader r))) ->
  multiline r = true ->
  is_callable (after_line r) = false ->
  ordinary i r (done_command r) ->
  Reader_huh E self c w =
  restore_and_complete E self i c (buffer r) (sends (literal (after_line r)) w).
Proof.
  intros c Ho Hm Hal [Hab Hsp].
  unfold Reader_huh, restore_and_complete, bind.
  rewrite (get_reader_found _ _ _ _ _ Ho).
  rewrite send_opt_literal by done.
  set (wa := sends (literal (after_line r)) w).
  assert (Hoa : objects wa !! self = Some (mkObj p (KIntercept i (SReader r)))) by exact Ho.
  rewrite (Intercept_huh_other _ _ _ _ _ _ Hoa) by (simpl; congruence).
  simpl. rewrite (get_reader_found _ _ _ _ _ Hoa).
  rewrite decide_False by congruence.
  rewrite Hm. rewrite bool_decide_eq_true_2 by done. simpl.
  rewrite (get_reader_found _ _ _ _ _ Hoa). rewrite Hm. simpl.
  rewrite bool_decide_eq_true_2 by done.
  rewrite (get_intercept_found _ _ _ _ _ Hoa). reflexivity.
Qed.

(** C7, as amended.  A [Reader] whose line hooks are not callables, fed
    lines that are neither the abort nor the spell-check token.  In
    single-line mode the first line is joined to the buffer the reader
    starts with (it is the buffer when that was empty); the connection then
    gets [restore_parser] and the completion hook runs with the buffer.  In
    multi-line mode the non-empty lines are joined to the buffer with the
    separator, empty lines being dropped, the dispatcher stays, and on the
    finish token the connection gets [restore_parser] and the completion
    hook runs with the joined buffer. *)
Theorem Reader_huh_completion self p i r w :
  let o := mkObj p (KIntercept i (SReader r)) in
  let sep := line_separator r in
  objects w !! self = Some o ->
  is_callable (after_line r) = false ->
  is_callable (before_line r) = false ->
  (multiline r = false ->
   forall line, ordinary i r line ->
     let b := joined sep [buffer r; line] in
     Reader_huh E self (line_caller line) w =
     restore_and_complete E self i (line_caller line) b
       (with_obj self (with_buffer o b) (sends (literal (after_line r)) w))) /\
  (multiline r = true ->
   forall lines,
     Forall (fun l => ordinary i r l /\ l <> done_command r) lines ->
     ordinary i r (done_command r) ->
     let b := joined sep (buffer r :: lines) in
     exists w',
       read_lines E self lines w = (Ok tt, w') /\
       _parser w' = _parser w /\
       objects w' !! self = Some (with_buffer o b) /\
       Reader_huh E self (line_caller (done_command r)) w' =
       restore_and_complete E self i (line_caller (done_command r)) b
         (sends (literal (after_line r)) w')).
Proof.
  intros o sep Ho Ha Hb. split.
  - intros Hm line [Hab Hsp] b.
    rewrite (Reader_huh_line self p i r line w Ho Ha Hab Hsp (or_introl Hm)).
    by rewrite Hm.
  - intros Hm lines Hall Hdone b.
    destruct (Reader_accumulates self p i lines r w Ho Hm Ha Hb Hall)
      as (w' & Hrun & Hp & Hobj).
    exists w'. split; [done|]. split; [done|].
    assert (Ho' : objects w' !! self = Some (with_buffer o b)).
    { rewrite Hobj. by rewrite lookup_insert_eq. }
    split; [done|].
    unfold with_buffer in Ho'. simpl in Ho'.
    exact (Reader_huh_finish self p i (set_buffer r b) w' Ho' Hm Ha Hdone).
Qed.

(** *** YesOrNo *)



(** C10.  A [YesOrNo] that receives an empty line ignores it: whatever the
    callables are, [YesOrNo.huh] returns [False] in the very state it was
    called in, so the dispatcher of the connection is unchanged, neither
    callback ran and nothing was sent.  The empty line is not the abort
    token. *)
Theorem YesOrNo_huh_empty_line self p i y c w :
  objects w !! self = Some (mkObj p (KIntercept i (SYesOrNo y))) ->
  abort_command i <> EmptyString ->
  text c = Some EmptyString ->
  YesOrNo_huh E self c w = (Ok false, w).
Proof.
  intros H Hab Ht. unfold YesOrNo_huh, bind.
  rewrite (Intercept_huh_other _ _ _ _ _ _ H); [| rewrite Ht; congruence].
  simpl. by rewrite Ht.
Qed.

End Facts.

(** ** Further properties

    *** Splitting and registration *)

Lemma prefix_rejoin p s :
  String.prefix p s = true -> s = p +:+ Py.drop (String.length p) s.
Proof.
  revert s. induction p as [|c p IH]; intros s H; [done|].
  destruct s as [|c' s]; simpl in H; [done|].
  destruct (Ascii.ascii_dec c c') as [->|]; [|done].
  change (String c' s = String c' (p +:+ Py.drop (String.length p) s)).
  f_equal. by apply IH.
Qed.

Lemma prefix_app p s x :
  String.prefix p s = true -> String.prefix p (s +:+ x) = true.
Proof.
  revert s. induction p as [|c p IH]; intros s H; [by destruct (s +:+ x)|].
  destruct s as [|c' s]; simpl in H; [done|].
  change (String.prefix (String c p) (String c' (s +:+ x)) = true). simpl.
  destruct (Ascii.ascii_dec c c'); [|done]. by apply IH.
Qed.

Lemma partition_unfold sep s :
  Py.partition sep s =
  if String.prefix sep s then Some (EmptyString, Py.drop (String.length sep) s)
  else match s with
       | EmptyString => None
       | String c t =>
           match Py.partition sep t with
           | Some (a, b) => Some (String c a, b)
           | None => None
           end
       end.
Proof. by destruct s. Qed.

Lemma partition_Some sep s a b :
  sep <> EmptyString ->
  Py.partition sep s = Some (a, b) ->
  s = a +:+ sep +:+ b /\ Py.partition sep a = None.
Proof.
  intros Hsep. revert a b. induction s as [|c t IH]; intros a b H.
  - rewrite partition_unfold in H. destruct sep; [done|]. done.
  - rewrite partition_unfold in H.
    destruct (String.prefix sep (String c t)) eqn:Hp.
    + injection H as <- <-. split; [by apply prefix_rejoin|].
      rewrite partition_unfold. destruct sep; done.
    + destruct (Py.partition sep t) as [[a' b']|] eqn:Ht; [|done].
      injection H as <- <-. destruct (IH a' b' eq_refl) as [-> Hn].
      split; [done|]. rewrite partition_unfold, Hn.
      destruct (String.prefix sep (String c a')) eqn:Hp'; [|done].
      apply (prefix_app _ _ (sep +:+ b')) in Hp'.
      change (String c a' +:+ sep +:+ b') with (String c (a' +:+ sep +:+ b')) in Hp'.
      congruence.
Qed.

(** [Parser.split].  With an empty separator the split raises [ValueError].
    Otherwise it returns, without touching the state, a name that does not
    contain the separator and the rest of the line: the line is the name, the
    separator and the rest when the separator occurs in it, and else the
    name is the whole line and the rest is empty. *)
Theorem Parser_split_rejoins p line w :
  (command_separator p = EmptyString ->
   Parser_split p line w = (Raise ValueError, w)) /\
  (command_separator p <> EmptyString ->
   exists name a,
     Parser_split p line w = (Ok (name, a), w) /\
     Py.partition (command_separator p) name = None /\
     match Py.partition (command_separator p) line with
     | Some _ => line = name +:+ command_separator p +:+ a
     | None => name = line /\ a = EmptyString
     end).
Proof.
  split.
  - intros H. unfold Parser_split. by rewrite H.
  - intros H. unfold Parser_split.
    destruct (command_separator p) as [|c sep] eqn:Hs; [done|].
    destruct (Py.partition (String c sep) line) as [[name a]|] eqn:Hp.
    + exists name, a. split; [done|].
      destruct (partition_Some _ _ _ _ H Hp) as [-> Hn]. done.
    + exists line, EmptyString. done.
Qed.

Lemma foldl_append_command c ns : forall cmds name,
  default [] (foldl (append_command c) cmds ns !! name) =
  default [] (cmds !! name) ++ replicate (length (filter (fun n => n = name) ns)) c.
Proof.
  induction ns as [|n ns IH]; intros cmds name; simpl.
  - by rewrite app_nil_r.
  - rewrite IH. unfold append_command. rewrite lookup_insert.
    rewrite filter_cons. destruct (decide (n = name)) as [->|Hne].
    + simpl. by rewrite <- app_assoc.
    + done.
Qed.

(** [Parser.command].  Registering a function adds the command made from it
    at the end of the overloads of each of its names, once for every time the
    name is listed, and leaves the overloads of every other name as they
    were. *)
Theorem Parser_command_appends dar d f cmds sep subs name :
  let r := Parser_command_inner dar d f cmds in
  get_commands (mkParser sep r.2 subs) name =
  get_commands (mkParser sep cmds subs) name
    ++ replicate (length (filter (fun n => n = name) (names r.1.1))) r.1.1.
Proof. intros r. unfold get_commands. cbn. apply foldl_append_command. Qed.

Lemma resolve_again dar d f g : resolve dar (resolve dar d f) g = resolve dar d f.
Proof.
  unfold resolve. cbn [d_names d_description d_help d_args_regexp d_allowed]. f_equal.
  - by destruct (d_names d).
  - destruct (Py.truthy (d_description d)) eqn:Ht; [by rewrite Ht|].
    unfold make_command_description.
    destruct (__doc__ f) as [doc|]; [|done].
    destruct (Py.truthy doc) eqn:Hd; [by rewrite Hd | done].
  - destruct (Py.truthy (d_help d)) eqn:Ht; [by rewrite Ht | done].
  - destruct (d_args_regexp d); [done|]. by destruct dar.
Qed.

(** [Parser.command].  The closure returned by [command] assigns its
    [nonlocal] variables: when it decorates a second function, that command
    gets the names, description, help and pattern worked out for the first
    one, and only the handler of the second. *)
Theorem decorator_keeps_first_function dar d f g cmds :
  let r1 := Parser_command_inner dar d f cmds in
  let r2 := Parser_command_inner dar r1.1.2 g r1.2 in
  r2.1.2 = r1.1.2 /\
  r2.1.1 = mkCommand (fn g) (names r1.1.1) (description r1.1.1) (help r1.1.1)
                     (args_regexp r1.1.1) (allowed r1.1.1).
Proof.
  intros r1 r2. unfold r2, r1, Parser_command_inner. cbn [fst snd].
  by rewrite resolve_again.
Qed.

(** *** Permissions *)

Lemma py_all_app xs ys w :
  py_all (xs ++ ys) w = (b <- py_all xs ;; if b then py_all ys else ret false) w.
Proof.
  revert w. induction xs as [|x xs IH]; intros w; simpl; [done|].
  unfold bind. destruct (x w) as [[[]|e] w1]; [|done|done].
  rewrite IH. reflexivity.
Qed.

Lemma py_any_app xs ys w :
  py_any (xs ++ ys) w = (b <- py_any xs ;; if b then ret true else py_any ys) w.
Proof.
  revert w. induction xs as [|x xs IH]; intros w; simpl; [done|].
  unfold bind. destruct (x w) as [[[]|e] w1]; [done| |done].
  rewrite IH. reflexivity.
Qed.

(** [permissions.and_] and [or_].  On validators that only read the state,
    [and_] is the conjunction and [or_] the disjunction of their answers;
    with no validators [and_] allows and [or_] refuses. *)
Theorem and_or_read_all_any fs c w :
  and_ (reads <$> fs) c w = (Ok (forallb (fun f => f c w) fs), w) /\
  or_ (reads <$> fs) c w = (Ok (existsb (fun f => f c w) fs), w).
Proof.
  unfold and_, or_, FuncPermission. split.
  - induction fs as [|f fs IH]; simpl; [done|].
    unfold bind, reads at 1. destruct (f c w); [exact IH | done].
  - induction fs as [|f fs IH]; simpl; [done|].
    unfold bind, reads at 1. destruct (f c w); [done | exact IH].
Qed.

(** [permissions.and_] and [or_] stop at the first validator that decides:
    the validators behind it are not called, so their effects and exceptions
    do not happen. *)
Theorem and_or_stop_early pre v post c w w1 w2 :
  let rest := v :: post in
  (and_ pre c w = (Ok true, w1) -> v c w1 = (Ok false, w2) ->
   and_ (pre ++ rest) c w = (Ok false, w2)) /\
  (or_ pre c w = (Ok false, w1) -> v c w1 = (Ok true, w2) ->
   or_ (pre ++ rest) c w = (Ok true, w2)).
Proof.
  unfold and_, or_, FuncPermission. split; intros Hpre Hv; rewrite fmap_app.
  - rewrite py_all_app. unfold bind at 1. rewrite Hpre. simpl.
    unfold bind. by rewrite Hv.
  - rewrite py_any_app. unfold bind at 1. rewrite Hpre. simpl.
    unfold bind. by rewrite Hv.
Qed.

(** [permissions.and_] and [or_] nest: combining two combinations is
    combining the validators of both, with the same effects and
    exceptions. *)
Theorem and_or_nest xs ys c w :
  and_ [and_ xs; and_ ys] c w = and_ (xs ++ ys) c w /\
  or_ [or_ xs; or_ ys] c w = or_ (xs ++ ys) c w.
Proof.
  unfold and_, or_, FuncPermission. rewrite !fmap_app. split.
  - rewrite py_all_app. simpl. unfold bind.
    destruct (py_all _ w) as [[[]|e] w1]; [|done|done].
    by destruct (py_all _ w1) as [[[]|e] w2].
  - rewrite py_any_app. simpl. unfold bind.
    destruct (py_any _ w) as [[[]|e] w1]; [done| |done].
    by destruct (py_any _ w1) as [[[]|e] w2].
Qed.

(** [permissions.or_] is the opposite of [and_] over the opposite
    validators, with the same effects and exceptions. *)
Theorem or_de_morgan vs c w :
  or_ vs c w = opposite (and_ (opposite <$> vs)) c w.
Proof.
  unfold opposite, and_, or_, FuncPermission.
  revert w. induction vs as [|v vs IH]; intros w; simpl; [done|].
  unfold bind in *.
  destruct (v c w) as [[[]|e] w1]; simpl; [done| |done].
  exact (IH w1).
Qed.

Section MoreFacts.

Variable E : Callables.

Lemma handle_line_loop self o line name a w :
  objects w !! self = Some o ->
  Parser_split (parser_of o) (substitute (parser_of o) line) w = (Ok (name, a), w) ->
  handle_line E self line w =
  (r <- for_commands E self (get_commands (parser_of o) name) a
          (set_command (line_caller (substitute (parser_of o) line)) name a) 0 ;;
   match r.1.1 with
   | Exhausted => if r.2 =? 0 then huh E self r.1.2 ;; ret tt else ret tt
   | Break => ret tt
   end ;;
   ret (if r.2 =? 0 then None else Some r.2)) w.
Proof.
  intros Ho Hs. unfold handle_line. unfold bind at 1.
  rewrite (get_obj_found _ _ _ Ho). cbn [pre_command negb].
  unfold bind at 1. rewrite Hs. reflexivity.
Qed.

(** [Parser.handle_line].  The first overload that the loop reaches, that is
    permitted and whose pattern matches the arguments, is called with the
    groups of the match; when it returns, the loop stops: no later overload
    is tried, [huh] is not called, and the result is the number of handlers
    called. *)
Theorem handle_line_first_match self o line name a pre cmd post m c1 n1 w w1 c2 w2 :
  objects w !! self = Some o ->
  Parser_split (parser_of o) (substitute (parser_of o) line) w = (Ok (name, a), w) ->
  get_commands (parser_of o) name = pre ++ cmd :: post ->
  for_commands E self pre a
    (set_command (line_caller (substitute (parser_of o) line)) name a) 0 w
    = (Ok (Exhausted, c1, n1), w1) ->
  ok_for E cmd c1 w1 = (Ok true, w1) ->
  match args_regexp cmd with None => Some ([], []) | Some re => re a end = Some m ->
  call_hook E (func cmd) (set_args c1 m.1 m.2) w1 = (None, c2, w2) ->
  handle_line E self line w = (Ok (Some (n1 + 1)), w2).
Proof.
  intros Ho Hs Hc Hpre Hok Hm Hcall.
  rewrite (handle_line_loop _ _ _ _ _ _ Ho Hs).
  unfold bind at 1. rewrite Hc, for_commands_app, Hpre.
  cbn [for_commands]. unfold bind at 1. rewrite Hok, Hm.
  unfold bind at 1. unfold try_call. rewrite Hcall. cbn.
  by replace (n1 + 1 =? 0) with false by (symmetry; apply Nat.eqb_neq; lia).
Qed.

(** [Parser.handle_line].  A handler that raises [DontStopException]
    ([Caller.dont_stop]) counts as matched and the loop goes on with the
    overloads behind it; when it was the last one, the line is done without
    [huh]. *)
Theorem handle_line_dont_stop self o line name a pre cmd post m c1 n1 w w1 c2 w2 :
  objects w !! self = Some o ->
  Parser_split (parser_of o) (substitute (parser_of o) line) w = (Ok (name, a), w) ->
  get_commands (parser_of o) name = pre ++ cmd :: post ->
  for_commands E self pre a
    (set_command (line_caller (substitute (parser_of o) line)) name a) 0 w
    = (Ok (Exhausted, c1, n1), w1) ->
  ok_for E cmd c1 w1 = (Ok true, w1) ->
  match args_regexp cmd with None => Some ([], []) | Some re => re a end = Some m ->
  call_hook E (func cmd) (set_args c1 m.1 m.2) w1 = (Some DontStopException, c2, w2) ->
  for_commands E self (cmd :: post) a c1 n1 w1 = for_commands E self post a c2 (n1 + 1) w2 /\
  (post = [] -> handle_line E self line w = (Ok (Some (n1 + 1)), w2)).
Proof.
  intros Ho Hs Hc Hpre Hok Hm Hcall.
  assert (Hstep : for_commands E self (cmd :: post) a c1 n1 w1
                  = for_commands E self post a c2 (n1 + 1) w2).
  { cbn [for_commands]. unfold bind at 1. rewrite Hok, Hm.
    unfold bind at 1. unfold try_call. rewrite Hcall. reflexivity. }
  split; [exact Hstep|]. intros ->.
  rewrite (handle_line_loop _ _ _ _ _ _ Ho Hs).
  unfold bind at 1. rewrite Hc, for_commands_app, Hpre, Hstep. cbn.
  by replace (n1 + 1 =? 0) with false by (symmetry; apply Nat.eqb_neq; lia).
Qed.

(** [Parser.handle_line] on an [Intercept].  The subclasses of [Intercept]
    redefine [explain] with the connection as only argument: when the
    arguments of a permitted command do not match its pattern there, the call
    [self.explain(cmd, connection)] raises [TypeError] and nothing is
    sent. *)
Theorem handle_line_mismatch_on_intercept
    self o line name a pre cmd post re c1 n1 w w1 p1 i s :
  objects w !! self = Some o ->
  Parser_split (parser_of o) (substitute (parser_of o) line) w = (Ok (name, a), w) ->
  get_commands (parser_of o) name = pre ++ cmd :: post ->
  for_commands E self pre a
    (set_command (line_caller (substitute (parser_of o) line)) name a) 0 w
    = (Ok (Exhausted, c1, n1), w1) ->
  ok_for E cmd c1 w1 = (Ok true, w1) ->
  args_regexp cmd = Some re ->
  re a = None ->
  connection c1 = Some this_connection ->
  objects w1 !! self = Some (mkObj p1 (KIntercept i s)) ->
  handle_line E self line w = (Raise TypeError, w1).
Proof.
  intros Ho Hs Hc Hpre Hok Hre Hno Hcon H1.
  rewrite (handle_line_loop _ _ _ _ _ _ Ho Hs).
  unfold bind at 1. rewrite Hc, for_commands_app, Hpre.
  cbn [for_commands]. unfold bind at 1. rewrite Hok, Hre, Hno, Hcon.
  unfold bind at 1. unfold explain_command, bind. rewrite (get_obj_found _ _ _ H1).
  reflexivity.
Qed.

Lemma partition_single_separator ch long rest :
  Py.partition (String ch EmptyString) long = None ->
  Py.partition (String ch EmptyString) (long +:+ String ch rest) = Some (long, rest).
Proof.
  induction long as [|c t IH]; intros Hn.
  - rewrite partition_unfold.
    change (EmptyString +:+ String ch rest) with (String ch rest). simpl.
    destruct (Ascii.ascii_dec ch ch); [|done]. by destruct rest.
  - rewrite partition_unfold in Hn.
    change (String c t +:+ String ch rest) with (String c (t +:+ String ch rest)).
    rewrite partition_unfold. simpl in *.
    destruct (Ascii.ascii_dec ch c).
    { by destruct t. }
    destruct (Py.partition (String ch EmptyString) t) as [[]|] eqn:Ht; [done|].
    by rewrite IH.
Qed.

(** [Parser.handle_line].  A line whose first character is a key of
    [command_substitutions] is split into the substituted name and the rest
    of the line behind that character, for a separator of one character that
    does not occur in the substituted name. *)
Theorem substitution_dispatches p c rest long ch w :
  dict_get (String c EmptyString) (command_substitutions p) = Some long ->
  command_separator p = String ch EmptyString ->
  Py.partition (command_separator p) long = None ->
  Parser_split p (substitute p (String c rest)) w = (Ok (long, rest), w).
Proof.
  intros Hd Hsep Hn. unfold substitute, Parser_split. rewrite Hd, Hsep in *.
  change (long +:+ String ch EmptyString +:+ rest) with (long +:+ (String ch rest)).
  by rewrite partition_single_separator.
Qed.

(** *** Numbers written in decimal *)

Lemma digits_of_uint d : forall n b,
  d <> Decimal.Nil \/ b = true ->
  Py.digits (Z.of_nat n) b (list_ascii_of_string (NilEmpty.string_of_uint d))
  = Some (Z.of_nat (Nat.of_uint_acc d n)).
Proof.
  induction d; intros n b Hb;
    [ destruct Hb as [?| ->]; [done | reflexivity] | .. ];
    cbn [NilEmpty.string_of_uint list_ascii_of_string Py.digits Nat.of_uint_acc];
    (match goal with
     | |- context [Py.digit_of ?c] =>
         let v := eval vm_compute in (Py.digit_of c) in
         change (Py.digit_of c) with v
     end);
    cbv iota beta;
    (match goal with
     | |- Py.digits ?z _ _ = Some (Z.of_nat (Nat.of_uint_acc _ ?m)) =>
         replace z with (Z.of_nat m) by (rewrite Nat.tail_mul_spec; lia)
     end);
    apply IHd; by right.
Qed.

Lemma string_of_uint_plain d :
  Forall (fun c => Py.is_space c = false /\ Ascii.eqb c "-" = false
                   /\ Ascii.eqb c "+" = false /\ Py.lower_ascii c = c)
         (list_ascii_of_string (NilEmpty.string_of_uint d)).
Proof. induction d; simpl; constructor; try done; by vm_compute. Qed.

Lemma lstrip_plain l :
  Forall (fun c => Py.is_space c = false) l -> Py.lstrip l = l.
Proof. intros H. destruct H as [|c l Hc _]; [done|]. simpl. by rewrite Hc. Qed.

Lemma strip_plain l :
  Forall (fun c => Py.is_space c = false) l -> Py.strip l = l.
Proof.
  intros H. unfold Py.strip. rewrite (lstrip_plain l H).
  rewrite lstrip_plain; [apply rev_involutive|]. by apply List.Forall_rev.
Qed.

Lemma to_uint_nonnil n : Nat.to_uint n <> Decimal.Nil.
Proof.
  rewrite <- (DecimalNat.Unsigned.of_to n) at 1.
  rewrite DecimalNat.Unsigned.to_of. apply DecimalFacts.unorm_nonnil.
Qed.

Lemma lower_plain s :
  Forall (fun c => Py.lower_ascii c = c) (list_ascii_of_string s) -> Py.lower s = s.
Proof.
  induction s as [|c s IH]; intros H; [done|].
  inversion H; subst. change (Py.lower (String c s)) with (String (Py.lower_ascii c) (Py.lower s)).
  by rewrite IH, H2.
Qed.

Lemma int_str_of_nat n : Py.int (Py.str_of_nat n) = Some (Z.of_nat n).
Proof.
  unfold Py.int, Py.str_of_nat.
  pose proof (string_of_uint_plain (Nat.to_uint n)) as Hp.
  rewrite strip_plain by (eapply Forall_impl; [exact Hp|]; by intros ? (? & ? & ? & ?)).
  pose proof (to_uint_nonnil n) as Hn.
  pose proof (digits_of_uint (Nat.to_uint n) 0 false (or_introl Hn)) as Hd.
  change (Z.of_nat 0) with 0%Z in Hd.
  destruct (list_ascii_of_string _) as [|c t] eqn:Hl.
  - destruct (Nat.to_uint n); done.
  - inversion Hp as [|? ? (_ & Hm & Hpl & _) _]; subst.
    rewrite Hm, Hpl. rewrite Hd. f_equal. f_equal.
    apply DecimalNat.Unsigned.of_to.
Qed.

Lemma lower_str_of_nat n : Py.lower (Py.str_of_nat n) = Py.str_of_nat n.
Proof.
  apply lower_plain. eapply Forall_impl; [apply string_of_uint_plain|]. by intros ? (? & ? & ? & ?).
Qed.

Lemma str_of_nat_first n :
  exists c t, Py.str_of_nat n = String c t /\ Py.digit_of c <> None.
Proof.
  unfold Py.str_of_nat. pose proof (to_uint_nonnil n) as Hn.
  destruct (Nat.to_uint n); [done|..]; simpl; eexists _, _; (split; [reflexivity|]);
    by vm_compute.
Qed.

(** *** The setter of the dispatcher, with a dispatcher *)

(** [Protocol.parser] setter with a dispatcher.  The old dispatcher is
    detached, the new one stored and then attached, with the old one as
    argument and with the new one already current.  A plain [Parser] does
    nothing on attach, a [YesOrNo] sends its question and its prompt; a
    dispatcher that does not exist raises on attach. *)
Theorem set_parser_swaps v w :
  let w1 := mkWorld (objects w) (Some v) (default_parser w) (spell_checker w)
              (trace w ++ swap_events (_parser w) v) in
  (exists w0,
     Protocol_set_parser E (Some v) w = on_attach E v (_parser w) w0 /\
     _parser w0 = Some v /\ objects w0 = objects w) /\
  (forall p, objects w !! v = Some (mkObj p KParser) ->
     Protocol_set_parser E (Some v) w = (Ok tt, w1)) /\
  (forall p i y, objects w !! v = Some (mkObj p (KIntercept i (SYesOrNo y))) ->
     Protocol_set_parser E (Some v) w = (Ok tt, sends [question y; yn_prompt y] w1)) /\
  (objects w !! v = None ->
     exists w0, Protocol_set_parser E (Some v) w = (Raise ReferenceError, w0)).
Proof.
  intros w1. rewrite Protocol_set_parser_attach. cbn [default].
  split; [|split; [|split]].
  - eexists. split; [reflexivity|]. done.
  - intros p Hv. erewrite on_attach_plain by exact Hv.
    unfold w1, swap_events. destruct (_parser w); cbn; rewrite <- ?app_assoc; reflexivity.
  - intros p i y Hv. unfold on_attach, bind, emit, get_obj. cbn. rewrite Hv. cbn.
    unfold explain, bind, get_obj. cbn. rewrite Hv. cbn.
    unfold YesOrNo_explain, bind, get_yesorno, bind, get_obj. cbn. rewrite Hv. cbn.
    unfold w1, sends, swap_events, notify, emit.
    destruct (_parser w); cbn; rewrite <- ?app_assoc; reflexivity.
  - intros Hv. unfold on_attach, bind, emit, get_obj. cbn. rewrite Hv. by eexists.
Qed.

(** *** Abort *)

(** [Intercept.huh] with [no_abort] set.  The abort token does not abort:
    [no_abort] is sent (or called), the line counts as handled, and the
    dispatcher of the connection stays. *)
Theorem abort_suppressed self p i s c v w :
  objects w !! self = Some (mkObj p (KIntercept i s)) ->
  text c = Some (abort_command i) ->
  no_abort i = Some v ->
  truthy_value (Some v) = true ->
  Intercept_huh E self c w = (c' <- send E v c ;; ret (true, c')) w /\
  (forall line, v = Text line -> connection c = Some this_connection ->
     Intercept_huh E self c w = (Ok (true, c), sends [line] w)).
Proof.
  intros Ho Ht Hn Hv.
  assert (Hh : Intercept_huh E self c w = (c' <- send E v c ;; ret (true, c')) w).
  { unfold Intercept_huh. unfold bind at 1. rewrite (get_intercept_found _ _ _ _ _ Ho).
    rewrite decide_True by done. unfold Intercept_do_abort. unfold bind at 1.
    rewrite (get_intercept_found _ _ _ _ _ Ho). rewrite Hn, Hv. reflexivity. }
  split; [exact Hh|]. intros line -> Hc. rewrite Hh. unfold bind, send. by rewrite Hc.
Qed.

(** [YesOrNo.huh].  The abort token is not an answer: the question only
    aborts, neither [yes] nor [no] is called on account of the text, and the
    result is [False]. *)
Theorem YesOrNo_huh_abort_is_no_answer self p i y c w :
  objects w !! self = Some (mkObj p (KIntercept i (SYesOrNo y))) ->
  text c = Some (abort_command i) ->
  YesOrNo_huh E self c w =
  (Intercept_do_abort E self c ;; ret false) w.
Proof.
  intros Ho Ht. unfold YesOrNo_huh, Intercept_huh. unfold bind at 1 2.
  rewrite (get_intercept_found _ _ _ _ _ Ho). rewrite decide_True by done.
  unfold bind.
  assert (Hb : forall r w', Intercept_do_abort E self c w = (Ok r, w') -> r.1 = true).
  { unfold Intercept_do_abort, bind. intros r w'.
    destruct (get_intercept self w) as [[i0|] w0]; [|done].
    destruct (truthy_value (no_abort i0)).
    - destruct (no_abort i0) as [v|].
      + destruct (send E v c w0) as [[c0|] w2]; [|done]. by intros [= <- <-].
      + by intros [= <- <-].
    - destruct (send E (aborted i0) c w0) as [[c0|] w2]; [|done].
      destruct (connection c0).
      + destruct (get_intercept self w2) as [[i1|] w3]; [|done].
        destruct (Protocol_set_parser E (restore_parser i1) w3) as [[[]|] w4]; [|done].
        by intros [= <- <-].
      + by intros [= <- <-]. }
  destruct (Intercept_do_abort E self c w) as [[r|e] w'] eqn:Hr; [|done].
  by rewrite (Hb r w' eq_refl).
Qed.

(** *** Menus *)

Lemma getitem_elem_of {A} (l : list A) i x : Py.getitem l i = Some x -> x ∈ l.
Proof.
  unfold Py.getitem. destruct (0 <=? i)%Z.
  - apply list_elem_of_lookup_2.
  - destruct (_ <=? i)%Z; [|done]. apply list_elem_of_lookup_2.
Qed.

(** [Menu.match].  A selection is always one of the items of the menu, and
    selecting changes neither the caller nor the state: the hooks only run
    when nothing is selected. *)
Theorem Menu_match_returns_item self p i m c it c' w w' :
  objects w !! self = Some (mkObj p (KIntercept i (SMenu m))) ->
  Menu_match E self c w = (Ok (Some it, c'), w') ->
  it ∈ items m /\ c' = c /\ w' = w.
Proof.
  intros Ho. unfold Menu_match. unfold bind at 1.
  rewrite (get_menu_found _ _ _ _ _ Ho).
  destruct (text c) as [[|a t]|]; [by intros [=]| |by intros [=]].
  destruct (decide _).
  - destruct (Py.getitem (items m) (-1)) eqn:Hg; [|by intros [=]].
    intros [= <- <- <-]. split; [|done]. by eapply getitem_elem_of.
  - destruct (mbind _ _) eqn:Hg.
    + intros [= <- <- <-]. split; [|done].
      destruct (Py.int _) as [n0|]; [|done]. by eapply getitem_elem_of.
    + destruct (if Py.truthy _ then _ else _) as [|x [|y l]] eqn:Hf.
      * unfold bind. destruct (no_matches m).
        -- by destruct (call E h c w) as [[]].
        -- by destruct (Menu__no_matches E self c w) as [[]].
      * intros [= <- <- <-]. split; [|done].
        destruct (Py.truthy _); [|done].
        assert (Hx : x ∈ prefix_matches (Py.lower (String a t)) (items m))
          by (rewrite Hf; apply list_elem_of_here).
        unfold prefix_matches in Hx. by apply list_elem_of_filter in Hx as [_ ?].
      * unfold bind. destruct (multiple_matches m).
        -- by destruct (call2 E h c _ w) as [[]].
        -- by destruct (Menu__multiple_matches self c _ w) as [[]].
Qed.

(** [Menu.huh].  When a line selects an item, the connection gets the
    menu's [restore_parser] first and the handler of the item is called
    afterwards, with the caller of the line. *)
Theorem Menu_huh_selects self p i m c it w :
  objects w !! self = Some (mkObj p (KIntercept i (SMenu m))) ->
  text c <> Some (abort_command i) ->
  connection c = Some this_connection ->
  Menu_match E self c w = (Ok (Some it, c), w) ->
  Menu_huh E self c w =
  (Protocol_set_parser E (restore_parser i) ;; call E (item_func it) c ;; ret true) w.
Proof.
  intros Ho Hab Hc Hm. unfold Menu_huh. unfold bind at 1.
  rewrite (Intercept_huh_other _ _ _ _ _ _ _ Ho Hab). cbn [fst snd].
  unfold bind at 1. rewrite Hm. cbn [fst snd]. rewrite Hc.
  unfold bind at 1 2. by rewrite (get_intercept_found _ _ _ _ _ Ho).
Qed.

Lemma Menu_send_items_lines self p i m its w :
  objects w !! self = Some (mkObj p (KIntercept i (SMenu m))) ->
  Menu_send_items self its w = (Ok tt, sends (menu_lines m (default (items m) its)) w).
Proof.
  intros Ho. unfold Menu_send_items.
  erewrite bind_ok by (by eapply get_menu_found).
  erewrite bind_ok by apply notify_all_sends.
  by rewrite notify_all_sends, sends_sends.
Qed.

Lemma Menu_explain_lines self p i m line w :
  objects w !! self = Some (mkObj p (KIntercept i (SMenu m))) ->
  menu_prompt m = Text line ->
  Menu_explain E self w = (Ok tt, sends (title m :: menu_lines m (items m) ++ [line]) w).
Proof.
  intros Ho Hp. unfold Menu_explain.
  erewrite bind_ok by (by eapply get_menu_found).
  erewrite bind_ok by apply notify_sends.
  erewrite bind_ok by (by eapply Menu_send_items_lines).
  erewrite bind_ok by (by eapply get_menu_found).
  rewrite Hp. cbn [send Caller_init connection].
  unfold bind. rewrite notify_sends. unfold ret. rewrite !sends_sends. reflexivity.
Qed.

(** [Menu.huh] on a line that selects nothing (not a usable number, no
    label starts with it), without a hook of its own: the connection reads
    [Invalid selection.]; a persistent menu then shows itself again and
    stays, a menu that is not persistent hands over to its
    [restore_parser]. *)
Theorem Menu_huh_no_match self p i m c t line w :
  objects w !! self = Some (mkObj p (KIntercept i (SMenu m))) ->
  text c = Some t ->
  t <> EmptyString ->
  t <> abort_command i ->
  connection c = Some this_connection ->
  Py.lower t <> "$" ->
  (n ← Py.int (Py.lower t);
   Py.getitem (items m) (if (0 <? n)%Z then (n - 1)%Z else n)) = None ->
  prefix_matches (Py.lower t) (items m) = [] ->
  no_matches m = None ->
  menu_prompt m = Text line ->
  (persistent m = true ->
   Menu_huh E self c w =
   (Ok true, sends ("Invalid selection." :: title m :: menu_lines m (items m) ++ [line]) w)) /\
  (persistent m = false ->
   forall w2 p2 i2 m2,
     Protocol_set_parser E (restore_parser i) (sends ["Invalid selection."] w) = (Ok tt, w2) ->
     objects w2 !! self = Some (mkObj p2 (KIntercept i2 (SMenu m2))) ->
     persistent m2 = false ->
     Menu_huh E self c w = (Ok true, w2)).
Proof.
  intros Ho Ht Hne Hab Hc Hd Hn Hf Hnm Hp.
  assert (Hm : Menu_match E self c w = (c' <- Menu__no_matches E self c ;; ret (None, c')) w).
  { unfold Menu_match. unfold bind at 1. rewrite (get_menu_found _ _ _ _ _ Ho), Ht.
    destruct t as [|a t']; [done|]. rewrite decide_False by done.
    rewrite Hn. replace (Py.truthy _) with true by reflexivity.
    by rewrite Hf, Hnm. }
  assert (Hh : forall c1 w1 p1 i1 m1,
    Menu__no_matches E self c w = (Ok c1, w1) ->
    objects w1 !! self = Some (mkObj p1 (KIntercept i1 (SMenu m1))) ->
    Menu_huh E self c w =
    ((if persistent m1 && bool_decide (is_Some (connection c1)) then explain E self
      else ret tt) ;; ret true) w1).
  { intros c1 w1 p1 i1 m1 Hno Ho1. unfold Menu_huh.
    erewrite bind_ok
      by (apply (Intercept_huh_other _ _ _ _ _ _ _ Ho); rewrite Ht; congruence).
    cbn [fst snd].
    erewrite bind_ok by (rewrite Hm; erewrite bind_ok by exact Hno; reflexivity).
    cbn [fst snd]. by erewrite bind_ok by (by eapply get_menu_found). }
  split.
  - intros Hpers.
    assert (Hno : Menu__no_matches E self c w = (Ok c, sends ["Invalid selection."] w)).
    { unfold Menu__no_matches. rewrite Hc.
      erewrite bind_ok by apply notify_sends.
      erewrite bind_ok by (by eapply get_menu_found).
      rewrite Hpers. reflexivity. }
    rewrite (Hh _ _ _ _ _ Hno Ho). rewrite Hpers, Hc. cbn [andb].
    rewrite bool_decide_eq_true_2 by done.
    unfold explain.
    erewrite bind_ok; [|erewrite bind_ok by (by apply get_obj_found); cbn [kind];
                        by eapply Menu_explain_lines].
    by rewrite sends_sends.
  - intros Hpers w2 p2 i2 m2 Hset Ho2 Hp2.
    assert (Hno : Menu__no_matches E self c w = (Ok c, w2)).
    { unfold Menu__no_matches. rewrite Hc.
      erewrite bind_ok by apply notify_sends.
      erewrite bind_ok by (by eapply get_menu_found).
      rewrite Hpers. cbn [negb].
      erewrite bind_ok; [reflexivity|].
      erewrite bind_ok by (by eapply get_intercept_found). exact Hset. }
    rewrite (Hh _ _ _ _ _ Hno Ho2). by rewrite Hp2.
Qed.

Lemma first_position_lookup its k it :
  NoDup (item_id <$> its) -> its !! k = Some it -> first_position (item_id it) its = k.
Proof.
  intros Hnd Hk. unfold first_position.
  assert (Hf : list_find (fun i => item_id i = item_id it) its = Some (k, it)).
  { apply list_find_Some. split; [done|]. split; [done|].
    intros j y Hj Hlt Heq. assert (j = k); [|lia].
    eapply NoDup_lookup; [exact Hnd| |].
    - rewrite list_lookup_fmap, Hj. simpl. by rewrite Heq.
    - by rewrite list_lookup_fmap, Hk. }
  by rewrite Hf.
Qed.

Lemma Menu_init_numbers its :
  NoDup (item_id <$> its) ->
  (fun i => set_index i (first_position (item_id i) its + 1)) <$> its
  = imap (fun k i => set_index i (k + 1)) its.
Proof.
  intros Hnd. apply list_eq. intros k.
  rewrite list_lookup_fmap, list_lookup_imap.
  destruct (its !! k) as [it|] eqn:Hk; [|done]. simpl.
  by rewrite (first_position_lookup its k it).
Qed.

(** [Menu.__init__], [Menu.explain] and [Menu.send_items].  Attaching a menu
    with distinct items, no labels and a text as prompt sends its title, one
    line per item, numbered from 1 in the order of the items, and the prompt,
    and makes it the dispatcher of the connection. *)
Theorem Menu_attach_renders v cmds subs ttl its line nm mm pers w :
  objects w !! v = Some (Menu_init cmds subs ttl its [] (Text line) nm mm pers) ->
  NoDup (item_id <$> its) ->
  Protocol_set_parser E (Some v) w =
  (Ok tt,
   sends (ttl :: imap numbered its ++ [line])
     (mkWorld (objects w) (Some v) (default_parser w) (spell_checker w)
        (trace w ++ swap_events (_parser w) v))).
Proof.
  intros Hv Hnd. rewrite Protocol_set_parser_attach. cbn [default].
  unfold on_attach.
  erewrite bind_ok by reflexivity.
  erewrite bind_ok by (apply get_obj_found; exact Hv).
  cbn [kind Menu_init]. unfold explain.
  erewrite bind_ok by (apply get_obj_found; exact Hv).
  cbn [kind Menu_init].
  erewrite Menu_explain_lines by (exact Hv || reflexivity).
  f_equal. cbn [title items]. unfold menu_lines. cbn [labels].
  change (labels_after [] None) with (@nil string).
  change (fun i => as_string i :: labels_after [] (Some (item_id i)))
    with (fun i : MenuItem => [as_string i]).
  rewrite Menu_init_numbers by done.
  assert (Hl : forall (l : list MenuItem) j,
    concat ((fun i => [as_string i]) <$> imap (fun k i => set_index i (j + k + 1)) l)
    = imap (fun k i => numbered (j + k) i) l).
  { induction l as [|x l IH]; intros j; [done|]. cbn. f_equal.
    specialize (IH (S j)).
    erewrite (imap_ext _ (fun k i => set_index i (S j + k + 1))); last first.
    { intros; cbn. f_equal. lia. }
    rewrite IH. apply imap_ext. intros; cbn. f_equal. lia. }
  specialize (Hl its 0). cbn in Hl. cbn [app]. rewrite Hl.
  unfold sends, swap_events. cbn.
  destruct (_parser w); cbn; rewrite <- ?app_assoc; reflexivity.
Qed.

(** [Menu.__init__] and [Menu.match].  The number shown in front of an item
    selects that item: for the item at position [k] of a menu with distinct
    items, the text of [k + 1] is matched to it. *)
Theorem Menu_number_selects self cmds subs ttl its lbls prompt nm mm pers k it c w :
  objects w !! self = Some (Menu_init cmds subs ttl its lbls prompt nm mm pers) ->
  NoDup (item_id <$> its) ->
  its !! k = Some it ->
  text c = Some (Py.str_of_nat (k + 1)) ->
  Menu_match E self c w = (Ok (Some (set_index it (k + 1)), c), w).
Proof.
  intros Ho Hnd Hk Ht. unfold Menu_match. unfold bind at 1.
  erewrite get_menu_found by exact Ho. rewrite Ht.
  pose proof (lower_str_of_nat (k + 1)) as Hl.
  pose proof (int_str_of_nat (k + 1)) as Hi.
  destruct (str_of_nat_first (k + 1)) as (a & t & Hs & Hdig).
  rewrite Hs in *. rewrite Hl, Hi.
  rewrite decide_False; last first.
  { intros [= -> _]. by apply Hdig. }
  cbn [mbind option_bind]. replace (0 <? Z.of_nat (k + 1))%Z with true
    by (symmetry; apply Z.ltb_lt; lia).
  unfold Py.getitem. replace (0 <=? Z.of_nat (k + 1) - 1)%Z with true
    by (symmetry; apply Z.leb_le; lia).
  replace (Z.to_nat (Z.of_nat (k + 1) - 1)) with k by lia.
  unfold Menu_init. cbn [items]. rewrite list_lookup_fmap, Hk. cbn.
  by rewrite (first_position_lookup its k it).
Qed.
(** [Parser.command] and [Parser.handle_line].  A function registered under
    a name, without a pattern and without a permission, in a parser that had
    no command of that name, is what a line consisting of that name calls:
    once, with no arguments. *)
Theorem registered_command_runs self o dar d f cmds name c2 w w2 :
  let r := Parser_command_inner dar d f cmds in
  let c := set_args (set_command (line_caller name) name EmptyString) [] [] in
  objects w !! self = Some o ->
  commands (parser_of o) = r.2 ->
  cmds !! name = None ->
  d_names d = [name] ->
  d_args_regexp d = None -> dar = None ->
  d_allowed d = None ->
  substitute (parser_of o) name = name ->
  command_separator (parser_of o) <> EmptyString ->
  Py.partition (command_separator (parser_of o)) name = None ->
  call_hook E (fn f) c w = (None, c2, w2) ->
  handle_line E self name w = (Ok (Some 1), w2).
Proof.
  intros r c Ho Hc Hn Hd Hre -> Hal Hsub Hsep Hp Hcall.
  assert (Hs : Parser_split (parser_of o) (substitute (parser_of o) name) w
               = (Ok (name, EmptyString), w)).
  { rewrite Hsub. unfold Parser_split.
    destruct (command_separator (parser_of o)); [done|]. by rewrite Hp. }
  rewrite (handle_line_loop _ _ _ _ _ _ Ho Hs).
  assert (Hg : get_commands (parser_of o) name = [r.1.1]).
  { unfold get_commands. rewrite Hc. unfold r, Parser_command_inner. cbn [fst snd names].
    rewrite foldl_append_command, Hn. unfold resolve. cbn [d_names]. rewrite Hd.
    cbn. by rewrite decide_True. }
  rewrite Hg, Hsub. unfold r, Parser_command_inner, resolve. cbn [fst snd].
  cbn [for_commands]. unfold ok_for at 1. cbn [allowed d_allowed]. rewrite Hal.
  unfold bind at 1 2. cbn [ret]. cbn [args_regexp d_args_regexp]. rewrite Hre.
  cbn [fst snd func]. unfold try_call, bind. unfold c in Hcall. rewrite Hcall. reflexivity.
Qed.

(** [Reader.huh] on the spell-check token when the server has no spell
    checker: the connection is told so, the line counts as handled, and the
    buffer and the dispatcher stay as they are. *)
Theorem Reader_huh_spell_check_unavailable self p i r c w :
  objects w !! self = Some (mkObj p (KIntercept i (SReader r))) ->
  is_callable (after_line r) = false ->
  connection c = Some this_connection ->
  text c = Some (spell_check_command r) ->
  spell_check_command r <> abort_command i ->
  spell_checker w = false ->
  Reader_huh E self c w =
  (Ok true,
   sends (literal (after_line r) ++ ["Spell checking is not available on this system."]) w).
Proof.
  intros Ho Hcal Hc Ht Hne Hsp. unfold Reader_huh.
  erewrite bind_ok by (by eapply get_reader_found).
  erewrite bind_ok by (by apply send_opt_literal).
  erewrite bind_ok; last first.
  { eapply Intercept_huh_other; [exact Ho|]. rewrite Ht. congruence. }
  cbn [fst snd]. rewrite Hc.
  erewrite bind_ok by (by eapply get_reader_found).
  rewrite Ht, decide_True by done.
  unfold bind at 1. unfold get at 1. cbn [sends spell_checker]. rewrite Hsp.
  erewrite bind_ok by apply notify_sends.
  by rewrite sends_sends.
Qed.
(** [Menu.match] on [$] with no items.  The last item of an empty menu does
    not exist: [Menu.huh] raises [IndexError], and so does [handle_line] on
    the line [$] when no command has that name; nothing is sent and the
    menu stays the dispatcher. *)
Theorem Menu_dollar_on_empty_menu self p i m w :
  objects w !! self = Some (mkObj p (KIntercept i (SMenu m))) ->
  items m = [] ->
  abort_command i <> "$" ->
  (forall c, text c = Some "$" -> Menu_huh E self c w = (Raise IndexError, w)) /\
  (substitute p "$" = "$" ->
   command_separator p <> EmptyString ->
   Py.partition (command_separator p) "$" = None ->
   get_commands p "$" = [] ->
   handle_line E self "$" w = (Raise IndexError, w)).
Proof.
  intros Ho Hi Hab.
  assert (Hh : forall c, text c = Some "$" -> Menu_huh E self c w = (Raise IndexError, w)).
  { intros c Ht. unfold Menu_huh.
    erewrite bind_ok; last first.
    { eapply Intercept_huh_other; [exact Ho|]. rewrite Ht. congruence. }
    cbn [fst snd]. unfold bind at 1. unfold Menu_match. unfold bind at 1.
    rewrite (get_menu_found _ _ _ _ _ Ho), Ht, Hi. reflexivity. }
  split; [exact Hh|]. intros Hsub Hsep Hp Hg.
  assert (Hs : Parser_split p (substitute p "$") w = (Ok ("$", EmptyString), w)).
  { rewrite Hsub. unfold Parser_split.
    destruct (command_separator p); [done|]. by rewrite Hp. }
  rewrite (handle_line_loop self (mkObj p (KIntercept i (SMenu m))) "$" "$" "" w Ho Hs).
  cbn [parser_of]. rewrite Hg, Hsub. cbn [for_commands].
  unfold bind at 1. cbn [ret fst snd Nat.eqb]. unfold bind at 1 2.
  unfold huh. unfold bind at 1. rewrite (get_obj_found _ _ _ Ho). cbn [kind].
  rewrite Hh by reflexivity. reflexivity.
Qed.

End MoreFacts.

(** *** Registration on several parsers *)

Lemma Parser_command_lookup p q d f ds name :
  get_commands_of (Parser_command p d f ds).2 q name =
  get_commands_of ds q name
    ++ (if decide (self_commands p = self_commands q)
        then copies name (Parser_command p d f ds).1 else []).
Proof.
  unfold get_commands_of, Parser_command, commands_of. cbn [fst snd].
  destruct (decide (self_commands p = self_commands q)) as [Heq|Hne].
  - rewrite Heq, lookup_insert_eq. cbn [default].
    unfold Parser_command_inner, copies. cbn [fst snd names].
    unfold id. by rewrite foldl_append_command.
  - rewrite lookup_insert_ne by done. by rewrite app_nil_r.
Qed.

(** [Parser.__init__] and [Parser.command].  A command registered on one
    parser is found on every parser that holds the same dictionary and on no
    other; two parsers made without a [commands] argument hold the same one,
    so a command registered on either is found on both. *)
Theorem Parser_command_shared p q d f ds name :
  let r := Parser_command p d f ds in
  get_commands_of r.2 q name =
  get_commands_of ds q name
    ++ (if decide (self_commands p = self_commands q) then copies name r.1 else []) /\
  forall dar1 dar2,
    let r0 := Parser_command (Parser_new dar1 None) d f ds in
    get_commands_of r0.2 (Parser_new dar2 None) name =
    get_commands_of ds (Parser_new dar2 None) name ++ copies name r0.1.
Proof.
  intros r. split; [apply Parser_command_lookup|].
  intros dar1 dar2 r0. unfold r0. rewrite Parser_command_lookup.
  cbn [Parser_new self_commands default].
  by rewrite decide_True.
Qed.

(** [util.command_parsers].  A parser finds, behind the overloads it had,
    one registration for every parser of the list that holds its dictionary,
    in the order of the list: parsers that share a dictionary get the command
    once per parser. *)
Theorem command_parsers_counts ps d f q name : forall ds,
  get_commands_of (command_parsers ps d f ds) q name =
  get_commands_of ds q name
    ++ concat ((fun p => copies name (Parser_command p d f ∅).1)
                 <$> filter (fun p => self_commands p = self_commands q) ps).
Proof.
  induction ps as [|p ps IH]; intros ds; cbn [command_parsers foldl].
  - cbn. by rewrite app_nil_r.
  - fold (command_parsers ps d f (Parser_command p d f ds).2).
    rewrite IH, Parser_command_lookup, filter_cons.
    destruct (decide (self_commands p = self_commands q)).
    + rewrite fmap_cons. cbn [concat]. by rewrite <- app_assoc.
    + by rewrite app_nil_r.
Qed.

(** ** The properties on concrete sessions *)

Import Session.

(** *** Python primitives *)

Example int_digits : Py.int "12" = Some 12%Z. Proof. reflexivity. Qed.
Example int_signed_in_spaces : Py.int " -3 " = Some (-3)%Z. Proof. reflexivity. Qed.
Example int_underscore : Py.int "1_0" = Some 10%Z. Proof. reflexivity. Qed.
Example int_double_underscore : Py.int "1__0" = None. Proof. reflexivity. Qed.
Example int_leading_underscore : Py.int "_1" = None. Proof. reflexivity. Qed.
Example int_trailing_underscore : Py.int "1_" = None. Proof. reflexivity. Qed.
Example int_letters : Py.int "ap" = None. Proof. reflexivity. Qed.
Example int_separator : Py.int (String (ascii_of_nat 28) "2") = None.
Proof. reflexivity. Qed.
Example int_form_feed : Py.int (String (ascii_of_nat 12) "2") = Some 2%Z.
Proof. reflexivity. Qed.
Example int_empty : Py.int "" = None. Proof. reflexivity. Qed.
Example int_sign_only : Py.int "-" = None. Proof. reflexivity. Qed.
Example partition_first :
  Py.partition " " "say hi there" = Some ("say", "hi there").
Proof. reflexivity. Qed.
Example partition_absent : Py.partition " " "look" = None. Proof. reflexivity. Qed.
Example partition_long_separator :
  Py.partition "::" "a::b::c" = Some ("a", "b::c").
Proof. reflexivity. Qed.
Example getitem_from_end : Py.getitem [1;2;3] (-1) = Some 3. Proof. reflexivity. Qed.
Example getitem_below : Py.getitem [1;2;3] (-4) = None. Proof. reflexivity. Qed.
Example getitem_above : Py.getitem [1;2;3] 3 = None. Proof. reflexivity. Qed.
Example lower_mixed : Py.lower "Yes PLEASE" = "yes please". Proof. reflexivity. Qed.
Example str_of_twelve : Py.str_of_nat 12 = "12". Proof. reflexivity. Qed.
Example str_of_zero : Py.str_of_nat 0 = "0". Proof. reflexivity. Qed.

(** *** Dispatch *)

(** C1, on the code.  Two overloads of [go]; the handler of the first one
    raises.  The error notice is sent, and then the handler of the second
    overload runs as well: [handle_line] returns two matched commands. *)
Lemma handle_line_fault_continues :
  let r := handle_line faulty 0 "go" two_overloads in
  r.1 = Ok (Some 2) /\
  calls r.2 = [(1, Some "go"); (2, Some "go")] /\
  sent r.2 = ["There was an error with your command."].
Proof. vm_compute. done. Qed.

Example say_without_text :
  let r := handle_line quiet 0 "say" chat in
  r.1 = Ok None /\
  sent r.2 = ["say:"; "Instead of typing " +:+ quote +:+ "say " +:+ quote
                      +:+ ", you can type !."; "Say something."; "say <text>"] /\
  calls r.2 = [].
Proof. vm_compute. done. Qed.

Example say_with_shortcut :
  let r := handle_line quiet 0 "!hi there" chat in
  r.1 = Ok (Some 1) /\ calls r.2 = [(3, Some "say hi there")].
Proof. vm_compute. done. Qed.

(** [look] when the first of its two overloads is refused: the handler of
    the second one runs; and when its only overload is refused. *)
Lemma handle_line_permission_skip_witness :
  (let c := set_args (set_command (line_caller "look") "look" "") [] [] in
   handle_line strict 0 "look" half_guarded = (Ok (Some 1), record_call 7 c half_guarded)) /\
  handle_line strict 0 "look" guarded
  = (Ok None, sends ["I don't understand that."] guarded).
Proof.
  split.
  - intros c.
    refine (proj1 (proj2 (handle_line_permission_skip strict 0 half_guarded_parser
                            "look" "look" "" half_guarded eq_refl eq_refl))
              [look] look_open [] ([], []) c _ eq_refl _ eq_refl eq_refl eq_refl).
    unfold all_rejected. repeat constructor.
  - refine (proj2 (proj2 (proj2 (handle_line_permission_skip strict 0 guarded_parser
                                   "look" "look" "" guarded eq_refl eq_refl))) _ eq_refl).
    unfold all_rejected. repeat constructor.
Defined.

(** [say] without a text.  On the parser of [chat] the first overload
    explains itself and the second one is not tried; on a menu that has the
    command, the line raises. *)
Lemma handle_line_mismatch_stops_witness :
  handle_line quiet 0 "say" chat =
  (Ok None,
   sends ["say:";
          "Instead of typing " +:+ quote +:+ "say " +:+ quote +:+ ", you can type !.";
          "Say something."; "say <text>"] chat) /\
  (let w := menu_session talking_menu in
   handle_line quiet 1 "say" w = (Raise TypeError, w)).
Proof.
  split.
  - exact (proj1 (proj2 (handle_line_mismatch_stops quiet 0 chat_parser "say" "say" "" []
                           say1 [say2] some_text _ 0 chat chat eq_refl eq_refl eq_refl
                           eq_refl eq_refl eq_refl eq_refl eq_refl))
             (parser_of chat_parser) eq_refl).
  - intros w.
    exact (proj2 (proj2 (handle_line_mismatch_stops quiet 1 talking_menu "say" "say" "" []
                           say1 [] some_text _ 0 w w eq_refl eq_refl eq_refl
                           eq_refl eq_refl eq_refl eq_refl eq_refl))
             (parser_of talking_menu) Intercept_default (SMenu fruit_menu) eq_refl).
Defined.

(** *** The dispatcher of the connection *)

(** [None] assigned while a question is the dispatcher. *)
Lemma set_parser_None_falls_back_witness :
  exists w2,
    Protocol_set_parser quiet None asking = (Ok tt, w2) /\
    _parser w2 = Some 0 /\
    objects w2 = objects asking /\
    trace w2 = trace asking ++ [on_detach_call 1 None; warn_fallback 0; print 0;
                                on_attach_call 0 (Some 1)].
Proof.
  apply (proj2 (set_parser_None_falls_back quiet asking 1 eq_refl) Parser_init).
  reflexivity.
Defined.

Lemma quiet_keeps_objects : callables_keep_objects quiet.
Proof. intros h c w. split; [reflexivity | intros l; reflexivity]. Qed.

(** C2, counterexample.  A question attached while a menu is the current
    dispatcher: its [restore_parser] is still [None] afterwards, and the
    abort token brings the connection to the baseline parser, not to the
    menu. *)
Lemma nested_abort_reaches_baseline :
  let w2 := ((Protocol_set_parser quiet (Some 1) ;;
              Protocol_set_parser quiet (Some 2)) nested).2 in
  on_attach_call 2 (Some 1) ∈ trace w2 /\
  _parser w2 = Some 2 /\
  restore_parser_at w2 2 = Some None /\
  restore_parser_at w2 2 <> Some (Some 1) /\
  _parser (lineReceived quiet "@abort" w2).2 = Some 0 /\
  _parser (lineReceived quiet "@abort" w2).2 <> Some 1.
Proof.
  vm_compute. split; [|done].
  repeat first [ apply list_elem_of_here | apply list_elem_of_further ].
Qed.

(** The question of [nested]: attached over the baseline its
    [restore_parser] stays [None], and its abort goes to the baseline. *)
Lemma abort_assigns_restore_parser_witness :
  (forall res w', Protocol_set_parser quiet (Some 2) nested = (res, w') ->
                  restore_parser_at w' 2 = Some None) /\
  exists w2,
    Intercept_huh quiet 2 (line_caller "@abort") nested = (Ok (true, line_caller "@abort"), w2) /\
    _parser w2 = Some 0 /\
    objects w2 = objects nested.
Proof.
  destruct (abort_assigns_restore_parser quiet 2 Parser_init Intercept_default
              (SYesOrNo sure_question) nested eq_refl) as [Hattach Habort].
  split.
  - intros res w' Hrun. unfold restore_parser_at.
    rewrite (Hattach (fun h c w => conj eq_refl (fun l => eq_refl)) nested res w'
               eq_refl Hrun).
    reflexivity.
  - exact (proj2 (Habort (line_caller "@abort") "Aborted" eq_refl eq_refl eq_refl eq_refl)
             Parser_init eq_refl).
Defined.

(** *** Menu *)

Lemma attrs_post_init_undefined : defined_in_mro "__attrs_post_init__" = false.
Proof. reflexivity. Qed.

(** C9, on the code.  [Menu().item("Look")(f)] appends the item and raises
    [AttributeError]: the item keeps the index [0] it was created with. *)
Lemma Menu_item_raises :
  let r := Menu_item 1 7 "Look" 3 (menu_session empty_menu) in
  r.1 = Raise AttributeError /\
  items_at r.2 1 = Some [mkMenuItem 7 "Look" 3 0].
Proof. vm_compute. done. Qed.

(** C6, counterexample.  The text [10] reads as an integer whose index is
    out of range in a menu of two items, yet the item labelled
    [10 apples] is selected, no hook runs and nothing is sent.  And the
    empty text, a prefix of every label, selects nothing and calls no
    hook. *)
Lemma Menu_match_out_of_range_prefix :
  let w := menu_session crate in
  Py.int "10" = Some 10%Z /\
  (its ← items_at w 1; Py.getitem its 9) = None /\
  (Menu_match quiet 1 (line_caller "10") w).1
    = Ok (Some (mkMenuItem 1 "10 apples" 11 1), line_caller "10") /\
  (Menu_match quiet 1 (line_caller "10") w).2 = w /\
  (Menu_match quiet 1 (line_caller "10") w).1 <> Ok (None, line_caller "10") /\
  Menu_match quiet 1 (line_caller "") (menu_session fruit)
    = (Ok (None, line_caller ""), menu_session fruit).
Proof. vm_compute. done. Qed.

Example fruit_session :
  let w := (feed quiet ["ap"; "ban"] (menu_session fruit)).2 in
  sent w = ["That matched multiple items:"; "[1] Apple"; "[2] Apricot";
            "Type a number or @abort to abort."] /\
  calls w = [(13, Some "ban")] /\
  _parser w = Some 0.
Proof. vm_compute. done. Qed.

(** A separator character in front of a number is not white space for
    [int]: the line is no number and, as no label starts with it, selects
    nothing. *)
Example separator_line_selects_nothing :
  let c := line_caller (String (ascii_of_nat 28) "2") in
  let r := Menu_match quiet 1 c (menu_session fruit) in
  r.1 = Ok (None, c) /\ sent r.2 = ["Invalid selection."].
Proof. vm_compute. done. Qed.

(** The menu of Apple, Apricot and Banana. *)
Lemma Menu_match_selection_witness :
  let w := menu_session fruit in
  Menu_match quiet 1 (line_caller "$") w = (Ok (Some (set_index banana 3), line_caller "$"), w) /\
  Menu_match quiet 1 (line_caller "1") w = (Ok (Some (set_index apple 1), line_caller "1"), w) /\
  Menu_match quiet 1 (line_caller "ban") w = (Ok (Some (set_index banana 3), line_caller "ban"), w) /\
  Menu_match quiet 1 (line_caller "ap") w =
    (c <- Menu__multiple_matches 1 (line_caller "ap") [set_index apple 1; set_index apricot 2] ;;
     ret (None, c)) w.
Proof.
  intros w. split; [|split; [|split]].
  - refine (proj1 (Menu_match_selection quiet 1 Parser_init Intercept_default fruit_menu
                     (line_caller "$") "$" w eq_refl eq_refl _) eq_refl _); discriminate.
  - refine (proj1 (proj2 (Menu_match_selection quiet 1 Parser_init Intercept_default fruit_menu
                     (line_caller "1") "1" w eq_refl eq_refl _)) _ _ eq_refl); discriminate.
  - refine (proj1 (proj2 (proj2 (Menu_match_selection quiet 1 Parser_init Intercept_default
                     fruit_menu (line_caller "ban") "ban" w eq_refl eq_refl _))) _ eq_refl);
      discriminate.
  - refine (proj1 (proj2 (proj2 (Menu_match_selection quiet 1 Parser_init Intercept_default
                     fruit_menu (line_caller "ap") "ap" w eq_refl eq_refl _))) _ eq_refl);
      discriminate.
Defined.

(** *** Reader *)

Example reader_round_trip : 
  calls (feed quiet ["a"; "b"; "."] (reader_session notes)).2 = [(9, Some ("a" +:+ nl +:+ "b"))].
Proof. vm_compute. done. Qed.

(** C7, counterexample.  A multi-line reader given [a], an empty line, [b]
    and the finish token completes with [a] and [b] joined, which is not
    the three received lines joined by the separator; a single-line reader
    created with the buffer [x] completes with [x] joined to the line, not
    with the line. *)
Lemma Reader_buffer_not_lines :
  calls (feed quiet ["a"; ""; "b"; "."] (reader_session notes)).2
    = [(9, Some ("a" +:+ nl +:+ "b"))] /\
  Py.join nl ["a"; ""; "b"] <> "a" +:+ nl +:+ "b" /\
  calls (feed quiet ["hello"] (reader_session prefilled)).2
    = [(9, Some ("x" +:+ nl +:+ "hello"))] /\
  calls (feed quiet ["hello"] (reader_session prefilled)).2 <> [(9, Some "hello")].
Proof. vm_compute. done. Qed.

(** [hello] to a single-line reader; [a], [b] and the finish token to a
    multi-line reader. *)
Lemma Reader_huh_completion_witness :
  (let w := reader_session one_line in
   Reader_huh quiet 1 (line_caller "hello") w =
   restore_and_complete quiet 1 Intercept_default (line_caller "hello") "hello"
     (with_obj 1 (with_buffer one_line "hello") (sends [] w))) /\
  (let w := reader_session notes in
   exists w',
     read_lines quiet 1 ["a"; "b"] w = (Ok tt, w') /\
     _parser w' = _parser w /\
     objects w' !! 1 = Some (with_buffer notes ("a" +:+ nl +:+ "b")) /\
     Reader_huh quiet 1 (line_caller ".") w' =
     restore_and_complete quiet 1 Intercept_default (line_caller ".") ("a" +:+ nl +:+ "b")
       (sends [] w')).
Proof.
  split.
  - refine (proj1 (Reader_huh_completion quiet 1 Parser_init Intercept_default one_line_reader
                     (reader_session one_line) eq_refl eq_refl eq_refl) eq_refl "hello" _).
    split; discriminate.
  - refine (proj2 (Reader_huh_completion quiet 1 Parser_init Intercept_default notes_reader
                     (reader_session notes) eq_refl eq_refl eq_refl) eq_refl ["a"; "b"] _ _).
    + repeat constructor; discriminate.
    + split; discriminate.
Defined.

(** *** YesOrNo *)



(** The empty line on a question that was asked. *)
Lemma YesOrNo_huh_empty_line_witness :
  YesOrNo_huh quiet 1 (line_caller "") asking = (Ok false, asking).
Proof.
  eapply (YesOrNo_huh_empty_line quiet 1 Parser_init Intercept_default).
  - reflexivity.
  - discriminate.
  - reflexivity.
Defined.

(** *** Further examples *)

Lemma Parser_split_rejoins_witness :
  exists name a,
    Parser_split Parser_init "say hello there" chat = (Ok (name, a), chat) /\
    Py.partition " " name = None /\
    "say hello there" = name +:+ " " +:+ a.
Proof.
  apply (proj2 (Parser_split_rejoins Parser_init "say hello there" chat)). discriminate.
Defined.

Lemma and_or_stop_early_witness :
  and_ [anyone; nobody; broken] (line_caller "look") chat = (Ok false, chat) /\
  or_ [nobody; anyone; broken] (line_caller "look") chat = (Ok true, chat).
Proof.
  split.
  - exact (proj1 (and_or_stop_early [anyone] nobody [broken] (line_caller "look")
                    chat chat chat) eq_refl eq_refl).
  - exact (proj2 (and_or_stop_early [nobody] anyone [broken] (line_caller "look")
                    chat chat chat) eq_refl eq_refl).
Defined.

Lemma handle_line_first_match_witness :
  let c := set_args (set_command (line_caller "say hi") "say" "hi") [Some "hi"] [] in
  handle_line quiet 0 "say hi" chat = (Ok (Some 1), record_call 3 c chat).
Proof.
  intros c.
  exact (handle_line_first_match quiet 0 chat_parser "say hi" "say" "hi" [] say1 [say2]
           ([Some "hi"], []) _ 0 chat chat c _
           eq_refl eq_refl eq_refl eq_refl eq_refl eq_refl eq_refl).
Defined.

Lemma handle_line_dont_stop_witness :
  let c := set_args (set_command (line_caller "go") "go" "") [] [] in
  for_commands eager 0 [go1; go2] "" (set_command (line_caller "go") "go" "") 0 two_overloads
  = for_commands eager 0 [go2] "" c 1 (record_call 1 c two_overloads).
Proof.
  intros c.
  exact (proj1 (handle_line_dont_stop eager 0 _ "go" "go" "" [] go1 [go2]
                  ([], []) _ 0 two_overloads two_overloads c _
                  eq_refl eq_refl eq_refl eq_refl eq_refl eq_refl eq_refl)).
Defined.

Lemma handle_line_mismatch_on_intercept_witness :
  let w := menu_session talking_menu in
  handle_line quiet 1 "say" w = (Raise TypeError, w).
Proof.
  intros w.
  exact (handle_line_mismatch_on_intercept quiet 1 talking_menu "say" "say" "" [] say1 []
           some_text _ 0 w w _ Intercept_default (SMenu fruit_menu)
           eq_refl eq_refl eq_refl eq_refl eq_refl eq_refl eq_refl eq_refl eq_refl).
Defined.

Lemma substitution_dispatches_witness :
  Parser_split (parser_of chat_parser) (substitute (parser_of chat_parser) "!hello") chat
  = (Ok ("say", "hello"), chat).
Proof.
  exact (substitution_dispatches (parser_of chat_parser) "!" "hello" "say" " " chat
           eq_refl eq_refl eq_refl).
Defined.

Lemma set_parser_swaps_witness :
  Protocol_set_parser quiet (Some 0) asking =
  (Ok tt, mkWorld (objects asking) (Some 0) 0 false
            [on_detach_call 1 (Some 0); print 0; on_attach_call 0 (Some 1)]).
Proof.
  exact (proj1 (proj2 (set_parser_swaps quiet 0 asking)) Parser_init eq_refl).
Defined.

Lemma abort_suppressed_witness :
  let w := menu_session stubborn in
  Intercept_huh quiet 1 (line_caller "@abort") w
  = (Ok (true, line_caller "@abort"), sends ["You cannot abort."] w).
Proof.
  intros w.
  exact (proj2 (abort_suppressed quiet 1 Parser_init stubborn_intercept
                  (SYesOrNo sure_question) (line_caller "@abort") (Text "You cannot abort.")
                  w eq_refl eq_refl eq_refl eq_refl)
           "You cannot abort." eq_refl eq_refl).
Defined.

Lemma YesOrNo_huh_abort_is_no_answer_witness :
  YesOrNo_huh quiet 1 (line_caller "@abort") asking
  = (Intercept_do_abort quiet 1 (line_caller "@abort") ;; ret false) asking.
Proof.
  exact (YesOrNo_huh_abort_is_no_answer quiet 1 Parser_init Intercept_default sure_question
           (line_caller "@abort") asking eq_refl eq_refl).
Defined.

Lemma Menu_match_returns_item_witness :
  let w := menu_session fruit in
  set_index banana 3 ∈ items fruit_menu.
Proof.
  intros w.
  exact (proj1 (Menu_match_returns_item quiet 1 Parser_init Intercept_default fruit_menu
                  (line_caller "ban") (set_index banana 3) (line_caller "ban") w w
                  eq_refl eq_refl)).
Defined.

Lemma Menu_huh_selects_witness :
  let w := menu_session fruit in
  Menu_huh quiet 1 (line_caller "2") w =
  (Protocol_set_parser quiet None ;; call quiet 12 (line_caller "2") ;; ret true) w.
Proof.
  intros w.
  refine (Menu_huh_selects quiet 1 Parser_init Intercept_default fruit_menu
            (line_caller "2") (set_index apricot 2) w eq_refl _ eq_refl eq_refl).
  discriminate.
Defined.

Lemma Menu_huh_no_match_witness :
  let w := menu_session persistent_fruit in
  Menu_huh quiet 1 (line_caller "pear") w =
  (Ok true,
   sends ["Invalid selection."; "Select an item:"; "[1] Apple"; "[2] Apricot"; "[3] Banana";
          "Type a number or @abort to abort."] w).
Proof.
  intros w.
  refine (proj1 (Menu_huh_no_match quiet 1 Parser_init Intercept_default
                   persistent_fruit_menu (line_caller "pear") "pear"
                   "Type a number or @abort to abort." w
                   eq_refl eq_refl _ _ eq_refl _ eq_refl eq_refl eq_refl eq_refl) eq_refl);
    discriminate.
Defined.

Lemma Menu_attach_renders_witness :
  let w := world (<[1 := fruit]> {[0 := baseline]}) in
  Protocol_set_parser quiet (Some 1) w =
  (Ok tt,
   mkWorld (objects w) (Some 1) 0 false
     [on_detach_call 0 (Some 1); print 1; on_attach_call 1 (Some 0);
      sendLine "Select an item:"; sendLine "[1] Apple"; sendLine "[2] Apricot";
      sendLine "[3] Banana"; sendLine "Type a number or @abort to abort."]).
Proof.
  intros w.
  refine (Menu_attach_renders quiet 1 ∅ [] "Select an item:" [apple; apricot; banana]
            "Type a number or @abort to abort." None None false w eq_refl _).
  apply (bool_decide_unpack _). reflexivity.
Defined.

Lemma Menu_number_selects_witness :
  let w := menu_session fruit in
  Menu_match quiet 1 (line_caller "2") w = (Ok (Some (set_index apricot 2), line_caller "2"), w).
Proof.
  intros w.
  refine (Menu_number_selects quiet 1 ∅ [] "Select an item:" [apple; apricot; banana] []
            default_prompt None None false 1 apricot (line_caller "2") w
            eq_refl _ eq_refl eq_refl).
  apply (bool_decide_unpack _). reflexivity.
Defined.

Lemma registered_command_runs_witness :
  let c := set_args (set_command (line_caller "north") "north" "") [] [] in
  handle_line quiet 0 "north" compass = (Ok (Some 1), record_call 7 c compass).
Proof.
  intros c.
  refine (registered_command_runs quiet 0 compass_parser None north go_north ∅ "north"
            c compass _ eq_refl eq_refl eq_refl eq_refl eq_refl eq_refl eq_refl eq_refl
            _ eq_refl eq_refl).
  discriminate.
Defined.

Lemma Reader_huh_spell_check_unavailable_witness :
  let w := reader_session notes in
  Reader_huh quiet 1 (line_caller ".spell") w =
  (Ok true, sends ["Spell checking is not available on this system."] w).
Proof.
  intros w.
  refine (Reader_huh_spell_check_unavailable quiet 1 Parser_init Intercept_default
            notes_reader (line_caller ".spell") w eq_refl eq_refl eq_refl eq_refl _ eq_refl).
  discriminate.
Defined.

Lemma Menu_dollar_on_empty_menu_witness :
  let w := menu_session empty_menu in
  handle_line quiet 1 "$" w = (Raise IndexError, w).
Proof.
  intros w.
  refine (proj2 (Menu_dollar_on_empty_menu quiet 1 Parser_init Intercept_default
                   (mkMenu "Select an item:" [] [] default_prompt None None false) w
                   eq_refl eq_refl _) eq_refl _ eq_refl eq_refl); discriminate.
Defined.
